(** * Music discovery backend: token cache, catalog client, seed builder, profile routes

    A shallow embedding of
    - [src/spotify.js], lines 1-296: the catalog client (module [Spotify]);
    - the second text kept in [src/spotify.js], lines 297-617: a catalog client
      without input checks (module [SpotifyAlt]);
    - [src/server.js]: the request handlers (module [Server]);
    - [src/unnamed/part_001]: the request handlers with a mock-data fallback
      (module [ServerAlt]);
    - [src/unnamed/part_000]: the user schema (records [User], [TrackRef]).

    How the program is read:
    - a JavaScript value is a [value]; numbers are binary64 floats, strings
      are sequences of code units below 256; the seed object is a finite map
      from field names to values;
    - asynchronous code is run to completion, one request at a time, as a
      computation over the process state [World] that may throw;
    - the two remote hosts, the store and the engine's number printing are
      surroundings ([Env], [Db]): a reply carries its body as [JSON.parse]
      finds it; query parameters are strings; the body of a new favorite
      holds any JSON value in each field, the body of a new user strings,
      the body of a preference update numbers and a list of strings;
    - timestamps and token lifetimes are integers.
    Module [Profiles] holds the preference-update route and
    [SpotifyAltLookups] the second client's lookups by identifier. The mood
    route, the connection test, [getTrack] and the mock search and trending
    routes of [src/unnamed/part_001] are not part of the embedding.

    Part I holds the definitions, Part II the theorems. *)

From Stdlib Require Import ZArith String Ascii List Floats.
From stdpp Require Import base option list strings pretty gmap.

Set Warnings "-inexact-float,-register-all".
Local Open Scope string_scope.
Local Open Scope Z_scope.

(** * Part I: definitions *)

(** ** JavaScript values and the built-ins the program calls *)

Module Js.

(** A string is a sequence of code units below 256; a number is an IEEE 754
    binary64 value, as in the engine. *)
Inductive value :=
| VUndef
| VNull
| VBool (b : bool)
| VNum (f : float)
| VStr (s : string)
| VArr (items : list value)
| VObj (fields : list (string * value)).

(** What a [throw] carries. *)
Inductive exn :=
| Error (message : string)
| TypeError (message : string)
| SyntaxError (message : string).

Definition message_of (e : exn) : string :=
  match e with Error m | TypeError m | SyntaxError m => m end.

(** ToBoolean. *)
Definition truthy (v : value) : bool :=
  match v with
  | VUndef | VNull => false
  | VBool b => b
  | VNum f => negb (PrimFloat.eqb f 0%float || PrimFloat.is_nan f)
  | VStr s => negb (String.eqb s "")
  | VArr _ | VObj _ => true
  end.

(** [a === b] for operands that are never one and the same object: two
    primitives of one type with the same value; an array or an object on
    either side is a different thing from the other side. *)
Definition strict_equal (a b : value) : bool :=
  match a, b with
  | VUndef, VUndef | VNull, VNull => true
  | VBool x, VBool y => Bool.eqb x y
  | VNum x, VNum y => PrimFloat.eqb x y
  | VStr x, VStr y => String.eqb x y
  | _, _ => false
  end.

(** A query parameter or a nullable variable: absent, or a string. *)
Definition given (p : option string) : bool :=
  match p with Some s => negb (String.eqb s "") | None => false end.

(** White space and line terminators among the code units below 256. *)
Definition is_space (c : ascii) : bool :=
  match N_of_ascii c with
  | 9 | 10 | 11 | 12 | 13 | 32 | 160 => true
  | _ => false
  end%N.

Fixpoint trimStart (s : string) : string :=
  match s with
  | String c s' => if is_space c then trimStart s' else s
  | EmptyString => EmptyString
  end.

Fixpoint trimEnd (s : string) : string :=
  match s with
  | EmptyString => EmptyString
  | String c s' =>
      match trimEnd s' with
      | EmptyString => if is_space c then EmptyString else String c EmptyString
      | t => String c t
      end
  end.

(** [String.prototype.trim]. *)
Definition trim (s : string) : string := trimEnd (trimStart s).

(** [s.split(sep)] for a one-character separator. *)
Fixpoint split (sep : ascii) (s : string) : list string :=
  match s with
  | EmptyString => [EmptyString]
  | String c s' =>
      if Ascii.eqb c sep then EmptyString :: split sep s'
      else match split sep s' with
           | h :: t => String c h :: t
           | [] => [String c EmptyString]
           end
  end.

Definition comma : ascii := "," %char.

(** *** [parseFloat] *)

Definition digit_of (c : ascii) : option Z :=
  let n := Z.of_N (N_of_ascii c) in
  if (48 <=? n) && (n <=? 57) then Some (n - 48) else None.

(** The longest run of decimal digits at the front of [s], appended to the
    numeral [acc]: the numeral, the number of digits read, the rest. *)
Fixpoint digits (s : string) (acc : Z) (n : Z) : Z * Z * string :=
  match s with
  | String c s' =>
      match digit_of c with
      | Some d => digits s' (10 * acc + d) (n + 1)
      | None => (acc, n, s)
      end
  | EmptyString => (acc, n, s)
  end.

Definition sign (s : string) : bool * string :=
  match s with
  | String "-" s' => (true, s')
  | String "+" s' => (false, s')
  | _ => (false, s)
  end.

Definition signed (neg : bool) (f : float) : float :=
  if neg then (- f)%float else f.

(** The binary64 value nearest to [m * 10 ^ e] (ties to even), for [0 < m] of
    at most [nd] decimal digits.  A negative power of ten is divided out with
    64 guard bits and a sticky bit before the final rounding; what lies beyond
    the range of the format is settled without computing the power. *)
Definition round_decimal (m e nd : Z) : float :=
  if 310 <? e then infinity
  else if e + nd <? - 330 then 0%float
  else if 0 <=? e then SF2Prim (binary_round prec emax false (Z.to_pos (m * 10 ^ e)) 0)
  else
    let d := 10 ^ (- e) in
    let s := 65 + Z.log2 d in
    let n := m * 2 ^ s in
    let q := n / d in
    let sticky := if n mod d =? 0 then 0 else 1 in
    SF2Prim (binary_round prec emax false (Z.to_pos (2 * q + sticky)) (- s - 1)).

Definition exponent_part (s : string) : Z :=
  match s with
  | String c r =>
      if Ascii.eqb c "e" || Ascii.eqb c "E" then
        let '(eneg, r') := sign r in
        let '(ev, ne, _) := digits r' 0 0 in
        if ne =? 0 then 0 else if eneg then - ev else ev
      else 0
  | EmptyString => 0
  end.

(** [parseFloat(s)]: leading white space is skipped, then the longest prefix
    that is a decimal literal is read; [NaN] when there is none. *)
Definition parseFloat (s : string) : float :=
  let '(neg, s0) := sign (trimStart s) in
  if String.prefix "Infinity" s0 then signed neg infinity
  else
    let '(ip, ni, s1) := digits s0 0 0 in
    let '(m, nf, s2) :=
      match s1 with
      | String "." r => digits r ip 0
      | _ => (ip, 0, s1)
      end in
    if ni + nf =? 0 then nan
    else if m =? 0 then signed neg 0%float
    else signed neg (round_decimal m (exponent_part s2 - nf) (ni + nf)).

(** *** Property access, [ToString], [join] *)

Fixpoint assoc (k : string) (fields : list (string * value)) : value :=
  match fields with
  | [] => VUndef
  | (k', v) :: rest => if String.eqb k k' then v else assoc k rest
  end.

(** The number of a count. *)
Definition number_of_nat (n : nat) : float :=
  PrimFloat.of_uint63 (Uint63.of_Z (Z.of_nat n)).

(** [o.k]: reading a property of [undefined] or [null] throws; an array and
    a string have their [length]; another primitive has no data property. *)
Definition get (o : value) (k : string) : exn + value :=
  match o with
  | VUndef | VNull =>
      inl (TypeError ("Cannot read properties of undefined or null (reading " ++ k ++ ")"))
  | VObj fields => inr (assoc k fields)
  | VArr items =>
      inr (if String.eqb k "length" then VNum (number_of_nat (List.length items)) else VUndef)
  | VStr s =>
      inr (if String.eqb k "length" then VNum (number_of_nat (String.length s)) else VUndef)
  | _ => inr VUndef
  end.

(** [xs.join(sep)] over the converted elements. *)
Definition join (sep : string) (xs : list string) : string := String.concat sep xs.

Section ToString.
(** [Number::toString] is the engine's; the development is parametric in it. *)
Variable Number_toString : float -> string.

Fixpoint toString (v : value) : string :=
  match v with
  | VUndef => "undefined"
  | VNull => "null"
  | VBool true => "true"
  | VBool false => "false"
  | VNum f => Number_toString f
  | VStr s => s
  | VArr items =>
      join ","
        ((fix elems (l : list value) : list string :=
            match l with
            | [] => []
            | VUndef :: l' => EmptyString :: elems l'
            | VNull :: l' => EmptyString :: elems l'
            | x :: l' => toString x :: elems l'
            end) items)
  | VObj _ => "[object Object]"
  end.

(** [Array.isArray(x) ? x.join(',') : x]. *)
Definition joined (v : value) : value :=
  match v with
  | VArr _ => VStr (toString v)
  | _ => v
  end.

End ToString.

(** *** Percent-encoding *)

Definition hex_digit (n : N) : ascii :=
  match String.get (N.to_nat n) "0123456789ABCDEF" with
  | Some c => c
  | None => "0"%char
  end.

Definition percent (byte : N) : string :=
  String "%" (String (hex_digit (byte / 16)) (String (hex_digit (byte mod 16)) EmptyString)).

(** The UTF-8 bytes of a code unit below 256, each percent-encoded. *)
Definition percent_utf8 (c : ascii) : string :=
  let n := N_of_ascii c in
  if (n <? 128)%N then percent n
  else percent (192 + n / 64) ++ percent (128 + n mod 64).

Definition is_alnum (c : ascii) : bool :=
  let n := N_of_ascii c in
  ((48 <=? n) && (n <=? 57) || (65 <=? n) && (n <=? 90) || (97 <=? n) && (n <=? 122))%N.

Definition one_of (set : string) (c : ascii) : bool :=
  existsb (Ascii.eqb c) (list_ascii_of_string set).

Fixpoint encode (keep : ascii -> bool) (space_plus : bool) (s : string) : string :=
  match s with
  | EmptyString => EmptyString
  | String c s' =>
      (if keep c then String c EmptyString
       else if space_plus && Ascii.eqb c " " then "+"
       else percent_utf8 c) ++ encode keep space_plus s'
  end.

(** [encodeURIComponent(s)]. *)
Definition encodeURIComponent (s : string) : string :=
  encode (fun c => is_alnum c || one_of "-_.!~*'()" c) false s.

(** [URLSearchParams]: an ordered list of name and value pairs; [toString]
    is the form-urlencoded serialisation. *)
Definition URLSearchParams := list (string * string).

(** [params.append(k, v)], [v] already converted to a string. *)
Definition append (ps : URLSearchParams) (k v : string) : URLSearchParams :=
  (ps ++ [(k, v)])%list.

Definition form_encode (s : string) : string :=
  encode (fun c => is_alnum c || one_of "*-._" c) true s.

Definition params_toString (ps : URLSearchParams) : string :=
  join "&" (map (fun '(k, v) => form_encode k ++ "=" ++ form_encode v) ps).

End Js.

Import Js.

(** ** The user schema ([src/unnamed/part_000]) *)

(** A saved track. Its six [String] paths hold what the schema's cast made
    of the values pushed: a string, or [null] or [undefined] where there was
    none. *)
Record TrackRef := {
  trackId : value;
  trackName : value;
  artist : value;
  album : value;
  imageUrl : value;
  previewUrl : value;
  savedAt : Z
}.

Record Playlist := {
  playlistName : string;
  tracks : list string;
  playlistCreatedAt : Z
}.

Record Preferences := {
  energy : float;
  danceability : float;
  valence : float
}.

Record User := {
  uid : string;
  name : string;
  email : string;
  favoriteGenres : list string;
  savedTracks : list TrackRef;
  playlists : list Playlist;
  preferences : option Preferences;
  createdAt : Z
}.

Definition set_savedTracks (ts : list TrackRef) (u : User) : User :=
  {| uid := uid u; name := name u; email := email u;
     favoriteGenres := favoriteGenres u; savedTracks := ts;
     playlists := playlists u; preferences := preferences u;
     createdAt := createdAt u |}.

(** The collection behind the [User] model: the stored documents in insertion
    order, and whether the connection currently refuses operations. *)
Record Db := {
  users : list User;
  refusal : option exn
}.

(** ** Outbound requests and what comes back *)

Record Request := {
  hostname : string;
  port : Z;
  path : string;
  method : string;
  headers : list (string * string);
  written : string
}.

(** The body of a response as [JSON.parse] finds it. *)
Inductive Payload (A : Type) :=
| Blank
| Unparsable (e : exn)
| Parsed (a : A).
Arguments Blank {A}.
Arguments Unparsable {A} e.
Arguments Parsed {A} a.

(** How one [https.request] ends: an [error] event, the socket timeout, or
    the [end] of a response. *)
Inductive Reply (A : Type) :=
| Failed (e : exn)
| TimedOut
| Ended (statusCode : Z) (data : Payload A).
Arguments Failed {A} e.
Arguments TimedOut {A}.
Arguments Ended {A} statusCode data.

(** A reply together with the milliseconds that pass until it is there. *)
Record Timed (A : Type) := { elapsed : Z; reply : Reply A }.
Arguments elapsed {A} t.
Arguments reply {A} t.

(** The token endpoint's JSON (RFC 6749, 5.1): [expires_in] counts seconds. *)
Record TokenResponse := {
  access_token : option string;
  expires_in : Z
}.

(** ** The process state and its surroundings *)

(** Module variables of the catalog client, the clock read by [Date.now()],
    the requests sent so far, and the database. Timestamps are integers far
    below 2^53, where the engine's arithmetic is exact. *)
Record World := {
  accessToken : option string;
  tokenExpiry : option Z;
  now : Z;
  sent : list Request;
  db : Db
}.

(** What the program does not compute itself: the two remote hosts (each
    answers a request given the requests sent before it), the credentials
    header, number printing, identifiers of new documents, and the random
    choice made by the mock-data fallback. *)
Record Env := {
  Number_toString : float -> string;
  auth_server : list Request -> Request -> Timed TokenResponse;
  api_server : list Request -> Request -> Timed value;
  basic_auth : string;
  ObjectId : nat -> string;
  mockSelection : option string -> option string -> value
}.

(** ** Computations: state and exceptions *)

Inductive Outcome (A : Type) :=
| Return (a : A)
| Throw (e : exn).
Arguments Return {A} a.
Arguments Throw {A} e.

Definition M (A : Type) : Type := World -> Outcome A * World.

#[global] Instance M_ret : MRet M := fun A a w => (Return a, w).

#[global] Instance M_bind : MBind M := fun A B f m w =>
  match m w with
  | (Return a, w') => f a w'
  | (Throw e, w') => (Throw e, w')
  end.

Definition throw {A : Type} (e : exn) : M A := fun w => (Throw e, w).

(** [try { body } catch (e) { handler }]: what the body did to the state
    before it threw stays done. *)
Definition try_catch {A : Type} (body : M A) (handler : exn -> M A) : M A := fun w =>
  match body w with
  | (Return a, w') => (Return a, w')
  | (Throw e, w') => handler e w'
  end.

Definition lift {A : Type} (r : exn + A) : M A :=
  match r with inl e => throw e | inr a => mret a end.

Definition Date_now : M Z := fun w => (Return (now w), w).

Definition set_cache (tok : option string) (exp : option Z) (w : World) : World :=
  {| accessToken := tok; tokenExpiry := exp; now := now w; sent := sent w; db := db w |}.

Definition set_db (d : Db) (w : World) : World :=
  {| accessToken := accessToken w; tokenExpiry := tokenExpiry w; now := now w;
     sent := sent w; db := d |}.

(** Sending [r] to [server]: the request joins the log and the clock moves on
    to the moment the reply is complete. *)
Definition request {A : Type} (server : list Request -> Request -> Timed A)
    (r : Request) : M (Reply A) := fun w =>
  let t := server (sent w) r in
  (Return (reply t),
   {| accessToken := accessToken w; tokenExpiry := tokenExpiry w;
      now := now w + elapsed t; sent := sent w ++ [r]; db := db w |}).

Definition get_world : M World := fun w => (Return w, w).

Definition update (f : World -> World) : M unit := fun w => (Return tt, f w).

(** An object used as a record of optional fields: a missing key reads as
    [undefined]. *)
Definition prop (o : gmap string value) (k : string) : value :=
  default VUndef (o !! k).

(** ** The [User] model's operations

    The three operations the handlers call, as the schema of
    [src/unnamed/part_000] shapes them: [name] and [email] are required,
    [email] is unique. *)

(** [User.findById(id)]: the stored document with that identifier, or
    [null]; rejects while the connection refuses. *)
Definition findById (id : string) : M (option User) := fun w =>
  match refusal (db w) with
  | Some e => (Throw e, w)
  | None => (Return (List.find (fun u => String.eqb (uid u) id) (users (db w))), w)
  end.

(** [User.findOne({ email })]. *)
Definition findOne (mail : string) : M (option User) := fun w =>
  match refusal (db w) with
  | Some e => (Throw e, w)
  | None => (Return (List.find (fun u => String.eqb (email u) mail) (users (db w))), w)
  end.

(** The schema's [required] paths: a missing or empty string fails. *)
Definition valid (u : User) : bool :=
  negb (String.eqb (name u) "") && negb (String.eqb (email u) "").

(** The first stored document with the identifier of [u] becomes [u]. *)
Fixpoint replaceDoc (u : User) (docs : list User) : list User :=
  match docs with
  | [] => []
  | d :: rest =>
      if String.eqb (uid d) (uid u) then u :: rest else d :: replaceDoc u rest
  end.

(** [user.save()]. A document made by [new User(...)] is inserted, which the
    unique indexes on the identifier and on [email] may refuse; a document
    that was read from the collection is written back in place. *)
Definition save (isNew : bool) (u : User) : M unit := fun w =>
  match refusal (db w) with
  | Some e => (Throw e, w)
  | None =>
      if negb (valid u) then (Throw (Error "User validation failed"), w)
      else if isNew then
        if existsb (fun d => String.eqb (uid d) (uid u) || String.eqb (email d) (email u))
             (users (db w))
        then (Throw (Error "E11000 duplicate key error"), w)
        else (Return tt, set_db {| users := users (db w) ++ [u]; refusal := None |} w)
      else (Return tt, set_db {| users := replaceDoc u (users (db w)); refusal := None |} w)
  end.

(** What a [String] path of the schema makes of a value assigned to it:
    [null] and [undefined] stay, a string is itself, a number or a boolean
    is printed, an object stands for its string [_id] when it has one, and
    an array or any other object is refused. The refusal is reported by
    [save()]. *)
Definition castString (E : Env) (v : value) : exn + value :=
  match v with
  | VUndef | VNull | VStr _ => inr v
  | VNum f => inr (VStr (Number_toString E f))
  | VBool true => inr (VStr "true")
  | VBool false => inr (VStr "false")
  | VArr _ => inl (Error "Cast to string failed")
  | VObj fields =>
      match assoc "_id" fields with
      | VStr s => if String.eqb s "" then inl (Error "Cast to string failed")
                  else inr (VStr s)
      | _ => inl (Error "Cast to string failed")
      end
  end.

Definition andThen {A B : Type} (r : exn + A) (k : A -> exn + B) : exn + B :=
  match r with inl e => inl e | inr a => k a end.

(** ** The catalog client ([src/spotify.js], lines 1-296) *)

Module Spotify.
Section Client.
Context (E : Env).

(** Lines 26-39: the client-credentials request. *)
Definition tokenRequest : Request :=
  {| hostname := "accounts.spotify.com";
     port := 443;
     path := "/api/token";
     method := "POST";
     headers := [("Authorization", "Basic " ++ basic_auth E);
                 ("Content-Type", "application/x-www-form-urlencoded");
                 ("Content-Length", "29")];
     written := "grant_type=client_credentials" |}.

(** Lines 24-89: the exchange. On a 200 response carrying a token both
    module variables are overwritten, the expiry a minute short of the
    lifetime; every other ending rejects. *)
Definition exchangeToken : M string :=
  r ← request (auth_server E) tokenRequest;
  match r with
  | Failed e => throw e
  | TimedOut => throw (Error "Token request timeout")
  | Ended statusCode data =>
      if negb (statusCode =? 200)
      then throw (Error ("Token request failed: " ++ pretty statusCode))
      else
        match data with
        | Blank => throw (SyntaxError "Unexpected end of JSON input")
        | Unparsable e => throw e
        | Parsed response =>
            match access_token response with
            | Some token =>
                if negb (String.eqb token "") then
                  t ← Date_now;
                  update (set_cache (Some token)
                            (Some (t + (expires_in response - 60) * 1000)));;
                  mret token
                else throw (Error "No access token received")
            | None => throw (Error "No access token received")
            end
        end
  end.

(** Lines 16-94. The cached token is handed back when both module variables
    are truthy and the clock is before [tokenExpiry]; otherwise the exchange
    is made. The outer [catch] rethrows what it caught. *)
Definition getAccessToken : M string :=
  w ← get_world;
  match accessToken w, tokenExpiry w with
  | Some token, Some expiry =>
      if negb (String.eqb token "") && negb (expiry =? 0) && (now w <? expiry)
      then mret token
      else exchangeToken
  | _, _ => exchangeToken
  end.

(** Lines 97-164. *)
Definition makeSpotifyRequest (endpoint : string) : M value :=
  token ← getAccessToken;
  r ← request (api_server E)
        {| hostname := "api.spotify.com";
           port := 443;
           path := endpoint;
           method := "GET";
           headers := [("Authorization", "Bearer " ++ token);
                       ("Content-Type", "application/json");
                       ("Accept", "application/json")];
           written := "" |};
  match r with
  | Failed e => throw e
  | TimedOut => throw (Error "Request timeout")
  | Ended statusCode data =>
      match data with
      | Blank => throw (Error "Empty response from Spotify API")
      | Unparsable _ => throw (Error "Invalid JSON response from Spotify API")
      | Parsed response =>
          if statusCode =? 200 then mret response
          else
            (* the message is built inside the [try]: a failing property
               read lands in its [catch] *)
            match get response "error" with
            | inl _ => throw (Error "Invalid JSON response from Spotify API")
            | inr err =>
                let message :=
                  match err with
                  | VUndef | VNull => VUndef
                  | _ => match get err "message" with inr m => m | inl _ => VUndef end
                  end in
                throw (Error ("Spotify API error: " ++ pretty statusCode ++ " - "
                              ++ (if truthy message
                                  then toString (Number_toString E) message
                                  else "Unknown error")))
            end
      end
  end.

(** Lines 167-184; [limit = 20] is the default parameter. *)
Definition searchTracks (query : string) (limit : option Z) : M value :=
  let limit := default 20 limit in
  if String.eqb query "" || String.eqb (trim query) ""
  then throw (Error "Search query cannot be empty")
  else
    let encodedQuery := encodeURIComponent (trim query) in
    let endpoint := "/v1/search?q=" ++ encodedQuery ++ "&type=track&limit="
                    ++ pretty limit ++ "&market=US" in
    data ← makeSpotifyRequest endpoint;
    tracks ← lift (get data "tracks");
    if negb (truthy tracks) then throw (Error "Invalid search response format")
    else
      items ← lift (get tracks "items");
      if negb (truthy items) then throw (Error "Invalid search response format")
      else mret items.

(** [if (seeds.k !== undefined) params.append(k, seeds.k)]. *)
Definition appendDefined (seeds : gmap string value) (k : string)
    (params : URLSearchParams) : URLSearchParams :=
  match prop seeds k with
  | VUndef => params
  | v => append params k (toString (Number_toString E) v)
  end.

(** Lines 191-225: the query parameters of the recommendations request. *)
Definition recommendationParams (seeds : gmap string value) : URLSearchParams :=
  let params : URLSearchParams := [] in
  let params :=
    if truthy (prop seeds "seed_genres") then
      append params "seed_genres"
        (toString (Number_toString E) (joined (Number_toString E) (prop seeds "seed_genres")))
    else if truthy (prop seeds "seed_artists") then
      append params "seed_artists"
        (toString (Number_toString E) (joined (Number_toString E) (prop seeds "seed_artists")))
    else if truthy (prop seeds "seed_tracks") then
      append params "seed_tracks"
        (toString (Number_toString E) (joined (Number_toString E) (prop seeds "seed_tracks")))
    else append params "seed_genres" "pop,rock,hip-hop" in
  let params := appendDefined seeds "target_energy" params in
  let params := appendDefined seeds "target_danceability" params in
  let params := appendDefined seeds "target_valence" params in
  let params := appendDefined seeds "target_popularity" params in
  let params := appendDefined seeds "min_energy" params in
  let params := appendDefined seeds "max_energy" params in
  let params := appendDefined seeds "min_danceability" params in
  let params := appendDefined seeds "max_danceability" params in
  let params := appendDefined seeds "min_valence" params in
  let params := appendDefined seeds "max_valence" params in
  let params := appendDefined seeds "min_tempo" params in
  let params := appendDefined seeds "max_tempo" params in
  let params := append params "limit" "20" in
  let params := append params "market" "US" in
  params.

(** Lines 187-238. *)
Definition getRecommendations (seeds : gmap string value) : M value :=
  let params := recommendationParams seeds in
  let endpoint := "/v1/recommendations?" ++ params_toString params in
  data ← makeSpotifyRequest endpoint;
  tracks ← lift (get data "tracks");
  if negb (truthy tracks) then throw (Error "Invalid recommendations response format")
  else mret tracks.

(** [!trackIds || trackIds.length === 0]. *)
Definition no_ids (trackIds : value) : bool :=
  negb (truthy trackIds) ||
  match get trackIds "length" with
  | inr (VNum n) => PrimFloat.eqb n 0
  | _ => false
  end.

(** Lines 241-248. *)
Definition getTrackFeatures (trackIds : value) : M value :=
  if no_ids trackIds then mret (VArr [])
  else
    let ids := toString (Number_toString E) (joined (Number_toString E) trackIds) in
    data ← makeSpotifyRequest ("/v1/audio-features?ids=" ++ ids);
    lift (get data "audio_features").

(** Lines 258-265. *)
Definition getTracks (trackIds : value) : M value :=
  if no_ids trackIds then mret (VArr [])
  else
    let ids := toString (Number_toString E) (joined (Number_toString E) trackIds) in
    data ← makeSpotifyRequest ("/v1/tracks?ids=" ++ ids ++ "&market=US");
    lift (get data "tracks").

End Client.
End Spotify.

(** ** The second catalog client ([src/spotify.js], lines 297-617) *)

Module SpotifyAlt.
Section Client.
Context (E : Env).

(** Lines 306-389 and 392-464 are lines 16-94 and 97-164 again, with other
    log lines and other socket timeouts (10 s and 15 s). *)
Definition getAccessToken : M string := Spotify.getAccessToken E.

Definition makeSpotifyRequest (endpoint : string) : M value :=
  Spotify.makeSpotifyRequest E endpoint.

(** Lines 467-479: no check of the query; the log line reads
    [data.tracks.items.length] before the items are returned, and the
    [catch] rethrows. *)
Definition searchTracks (query : string) (limit : option Z) : M value :=
  let limit := default 20 limit in
  let encodedQuery := encodeURIComponent query in
  let endpoint := "/v1/search?q=" ++ encodedQuery ++ "&type=track&limit="
                  ++ pretty limit ++ "&market=US" in
  data ← makeSpotifyRequest endpoint;
  tracks ← lift (get data "tracks");
  items ← lift (get tracks "items");
  _ ← lift (get items "length");
  mret items.

(** Lines 487-536: the genre seed (or its default) is always sent, artist
    and track seeds are sent besides. *)
Definition recommendationParams (seeds : gmap string value) : URLSearchParams :=
  let params : URLSearchParams := [] in
  let params :=
    if truthy (prop seeds "seed_genres") then
      append params "seed_genres"
        (toString (Number_toString E) (joined (Number_toString E) (prop seeds "seed_genres")))
    else append params "seed_genres" "pop,rock,hip-hop" in
  let params :=
    if truthy (prop seeds "seed_artists") then
      append params "seed_artists"
        (toString (Number_toString E) (joined (Number_toString E) (prop seeds "seed_artists")))
    else params in
  let params :=
    if truthy (prop seeds "seed_tracks") then
      append params "seed_tracks"
        (toString (Number_toString E) (joined (Number_toString E) (prop seeds "seed_tracks")))
    else params in
  let params := Spotify.appendDefined E seeds "target_energy" params in
  let params := Spotify.appendDefined E seeds "target_danceability" params in
  let params := Spotify.appendDefined E seeds "target_valence" params in
  let params := Spotify.appendDefined E seeds "target_popularity" params in
  let params := Spotify.appendDefined E seeds "min_energy" params in
  let params := Spotify.appendDefined E seeds "max_energy" params in
  let params := Spotify.appendDefined E seeds "min_danceability" params in
  let params := Spotify.appendDefined E seeds "max_danceability" params in
  let params := Spotify.appendDefined E seeds "min_valence" params in
  let params := Spotify.appendDefined E seeds "max_valence" params in
  let params := Spotify.appendDefined E seeds "min_tempo" params in
  let params := Spotify.appendDefined E seeds "max_tempo" params in
  let params := append params "limit" "20" in
  let params := append params "market" "US" in
  params.

(** Lines 482-548: the log line reads [data.tracks.length]. *)
Definition getRecommendations (seeds : gmap string value) : M value :=
  let params := recommendationParams seeds in
  let endpoint := "/v1/recommendations?" ++ params_toString params in
  data ← makeSpotifyRequest endpoint;
  tracks ← lift (get data "tracks");
  _ ← lift (get tracks "length");
  mret tracks.

End Client.
End SpotifyAlt.

(** ** Requests and responses of the HTTP surface *)

(** The query string of [GET /api/recommendations]. *)
Record RecommendationQuery := {
  seed_genres : option string;
  seed_artists : option string;
  seed_tracks : option string;
  user_id : option string;
  mood : option string;
  energy_level : option string;
  dance_level : option string
}.

(** The body of [POST /api/users]. *)
Record NewUser := {
  new_name : string;
  new_email : string;
  new_favoriteGenres : option (list string)
}.

(** The body of [POST /api/users/:userId/favorites] as [express.json]
    parses it: each field is any JSON value, [undefined] when it is not
    there. *)
Record NewFavorite := {
  fav_trackId : value;
  fav_name : value;
  fav_artist : value;
  fav_album : value;
  fav_imageUrl : value;
  fav_previewUrl : value
}.

(** The objects passed to [res.json]. *)
Inductive Json :=
| ErrorJson (error : string) (message suggestion : option string)
| SearchJson (found : value) (count : value) (query : string)
| RecommendationsJson (recommendations : value)
    (appliedPreferences : gmap string value) (count : value)
| FallbackJson (recommendations : value)
    (appliedPreferences : gmap string value) (usingMockData : bool)
| TrendingJson (found : value) (count : value)
| UserJson (user : User)
| FavoritesJson (message : option string) (favorites : list TrackRef).

Record Response := { status : Z; json : Json }.

(** ** The request handlers ([src/server.js]) *)

Module Server.
Section Handlers.
Context (E : Env).

(** Lines 44-68. *)
Definition search (q : option string) : M Response :=
  try_catch
    (match q with
     | Some q' =>
         if String.eqb q' "" then
           mret {| status := 400; json := ErrorJson "Search query is required" None None |}
         else
           found ← Spotify.searchTracks E q' None;
           count ← lift (get found "length");
           mret {| status := 200; json := SearchJson found count q' |}
     | None =>
         mret {| status := 400; json := ErrorJson "Search query is required" None None |}
     end)
    (fun error =>
       mret {| status := 500;
               json := ErrorJson "Failed to search tracks from Spotify"
                         (Some (message_of error))
                         (Some "Check your Spotify API credentials and connection") |}).

(** Lines 77-82. *)
Definition basicSeeds (q : RecommendationQuery) : gmap string value :=
  let seeds : gmap string value := ∅ in
  let seeds :=
    match seed_genres q with
    | Some s => if String.eqb s "" then seeds
                else <["seed_genres" := VArr (map VStr (split comma s))]> seeds
    | None => seeds
    end in
  let seeds :=
    match seed_artists q with
    | Some s => if String.eqb s "" then seeds
                else <["seed_artists" := VArr (map VStr (split comma s))]> seeds
    | None => seeds
    end in
  let seeds :=
    match seed_tracks q with
    | Some s => if String.eqb s "" then seeds
                else <["seed_tracks" := VArr (map VStr (split comma s))]> seeds
    | None => seeds
    end in
  seeds.

(** Lines 85-110: [if (mood) switch (mood) ...]. *)
Definition applyMood (mood : option string) (seeds : gmap string value)
    : gmap string value :=
  match mood with
  | None => seeds
  | Some m =>
      if String.eqb m "happy" then
        <["target_energy" := VNum 0.7]> (<["target_valence" := VNum 0.8]> seeds)
      else if String.eqb m "sad" then
        <["target_energy" := VNum 0.3]> (<["target_valence" := VNum 0.2]> seeds)
      else if String.eqb m "energetic" then
        <["target_danceability" := VNum 0.8]> (<["target_energy" := VNum 0.9]> seeds)
      else if String.eqb m "chill" then
        <["target_valence" := VNum 0.5]> (<["target_energy" := VNum 0.3]> seeds)
      else if String.eqb m "focus" then
        <["min_instrumentalness" := VNum 0.3]>
          (<["target_valence" := VNum 0.6]> (<["target_energy" := VNum 0.4]> seeds))
      else seeds
  end.

(** Lines 112-120. *)
Definition applyOverrides (energy_level dance_level : option string)
    (seeds : gmap string value) : gmap string value :=
  let seeds :=
    match energy_level with
    | Some s => if String.eqb s "" then seeds
                else <["target_energy" := VNum (parseFloat s)]> seeds
    | None => seeds
    end in
  let seeds :=
    match dance_level with
    | Some s => if String.eqb s "" then seeds
                else <["target_danceability" := VNum (parseFloat s)]> seeds
    | None => seeds
    end in
  seeds.

(** Lines 126-136: what a loaded profile does to the seeds. *)
Definition applyProfile (user : option User) (seeds : gmap string value)
    : gmap string value :=
  match user with
  | Some u =>
      match preferences u with
      | Some p =>
          let seeds := <["target_energy" := VNum (energy p)]> seeds in
          let seeds := <["target_danceability" := VNum (danceability p)]> seeds in
          let seeds := <["target_valence" := VNum (valence p)]> seeds in
          match favoriteGenres u with
          | [] => seeds
          | _ :: _ => <["seed_genres" := VArr (map VStr (take 3 (favoriteGenres u)))]> seeds
          end
      | None => seeds
      end
  | None => seeds
  end.

(** Lines 122-140: the lookup sits in a [try] whose [catch] only logs. *)
Definition personalize (user_id : option string) (seeds : gmap string value)
    : M (gmap string value) :=
  match user_id with
  | Some id =>
      if String.eqb id "" then mret seeds
      else
        try_catch
          (user ← findById id; mret (applyProfile user seeds))
          (fun _ => mret seeds)
  | None => mret seeds
  end.

(** Lines 142-146. *)
Definition defaultGenres (seeds : gmap string value) : gmap string value :=
  if negb (truthy (prop seeds "seed_genres"))
     && negb (truthy (prop seeds "seed_artists"))
     && negb (truthy (prop seeds "seed_tracks"))
  then <["seed_genres" := VArr [VStr "pop"; VStr "rock"; VStr "hip-hop"]]> seeds
  else seeds.

(** Lines 73-146: the seed object handed to [getRecommendations]. *)
Definition buildSeeds (q : RecommendationQuery) : M (gmap string value) :=
  let seeds := basicSeeds q in
  let seeds := applyMood (mood q) seeds in
  let seeds := applyOverrides (energy_level q) (dance_level q) seeds in
  seeds ← personalize (user_id q) seeds;
  mret (defaultGenres seeds).

(** Lines 71-165. *)
Definition recommendations (q : RecommendationQuery) : M Response :=
  try_catch
    (seeds ← buildSeeds q;
     recs ← Spotify.getRecommendations E seeds;
     count ← lift (get recs "length");
     mret {| status := 200; json := RecommendationsJson recs seeds count |})
    (fun error =>
       mret {| status := 500;
               json := ErrorJson "Failed to get recommendations from Spotify"
                         (Some (message_of error))
                         (Some "Check your Spotify API credentials and connection") |}).

(** Lines 194-221. *)
Definition createUser (body : NewUser) : M Response :=
  try_catch
    (existing ← findOne (new_email body);
     match existing with
     | Some user => mret {| status := 200; json := UserJson user |}
     | None =>
         w ← get_world;
         let user :=
           {| uid := ObjectId E (List.length (users (db w)));
              name := new_name body;
              email := new_email body;
              favoriteGenres := default ["pop"; "rock"] (new_favoriteGenres body);
              savedTracks := [];
              playlists := [];
              preferences :=
                Some {| energy := 0.5; danceability := 0.5; valence := 0.5 |};
              createdAt := now w |} in
         save true user;;
         mret {| status := 201; json := UserJson user |}
     end)
    (fun _ => mret {| status := 500; json := ErrorJson "Failed to create user" None None |}).

(** Lines 224-238. *)
Definition getUser (userId : string) : M Response :=
  try_catch
    (found ← findById userId;
     match found with
     | None => mret {| status := 404; json := ErrorJson "User not found" None None |}
     | Some user => mret {| status := 200; json := UserJson user |}
     end)
    (fun _ => mret {| status := 500; json := ErrorJson "Failed to get user" None None |}).

(** The subdocument that [user.savedTracks.push({ trackId, name, ... })]
    makes at time [t]: every field goes through the schema's cast. *)
Definition castTrack (body : NewFavorite) (t : Z) : exn + TrackRef :=
  andThen (castString E (fav_trackId body)) (fun id =>
  andThen (castString E (fav_name body)) (fun n =>
  andThen (castString E (fav_artist body)) (fun a =>
  andThen (castString E (fav_album body)) (fun al =>
  andThen (castString E (fav_imageUrl body)) (fun im =>
  andThen (castString E (fav_previewUrl body)) (fun p =>
  inr {| trackId := id; trackName := n; artist := a; album := al;
         imageUrl := im; previewUrl := p; savedAt := t |})))))).

(** Lines 273-299. The duplicate test compares the stored [trackId] with the
    body's value as it came, by [===]; a value the schema refuses makes
    [save()] reject. *)
Definition addFavorite (userId : string) (body : NewFavorite) : M Response :=
  try_catch
    (found ← findById userId;
     match found with
     | None => mret {| status := 404; json := ErrorJson "User not found" None None |}
     | Some user =>
         match List.find (fun track => strict_equal (trackId track) (fav_trackId body))
                 (savedTracks user) with
         | Some _ =>
             mret {| status := 400;
                     json := ErrorJson "Track already in favorites" None None |}
         | None =>
             t ← Date_now;
             track ← lift (castTrack body t);
             let user := set_savedTracks (savedTracks user ++ [track]) user in
             save false user;;
             mret {| status := 200;
                     json := FavoritesJson (Some "Track added to favorites")
                               (savedTracks user) |}
         end
     end)
    (fun _ => mret {| status := 500; json := ErrorJson "Failed to save track" None None |}).

(** Lines 302-316. *)
Definition getFavorites (userId : string) : M Response :=
  try_catch
    (found ← findById userId;
     match found with
     | None => mret {| status := 404; json := ErrorJson "User not found" None None |}
     | Some user => mret {| status := 200; json := FavoritesJson None (savedTracks user) |}
     end)
    (fun _ => mret {| status := 500; json := ErrorJson "Failed to get favorites" None None |}).

(** Lines 319-336; [trackId] is a segment of the path, a string. *)
Definition removeFavorite (userId id : string) : M Response :=
  try_catch
    (found ← findById userId;
     match found with
     | None => mret {| status := 404; json := ErrorJson "User not found" None None |}
     | Some user =>
         let user :=
           set_savedTracks
             (List.filter (fun track => negb (strict_equal (trackId track) (VStr id)))
                (savedTracks user))
             user in
         save false user;;
         mret {| status := 200;
                 json := FavoritesJson (Some "Track removed from favorites")
                           (savedTracks user) |}
     end)
    (fun _ => mret {| status := 500; json := ErrorJson "Failed to remove track" None None |}).

(** Lines 343-347. *)
Definition trendingSeeds : gmap string value :=
  <["limit" := VNum 20]>
    (<["target_popularity" := VNum 80]>
       (<["seed_genres" := VArr [VStr "pop"; VStr "hip-hop"; VStr "electronic"]]> ∅)).

(** Lines 339-362. *)
Definition trending : M Response :=
  try_catch
    (found ← Spotify.getRecommendations E trendingSeeds;
     count ← lift (get found "length");
     mret {| status := 200; json := TrendingJson found count |})
    (fun error =>
       mret {| status := 500;
               json := ErrorJson "Failed to get trending tracks from Spotify"
                         (Some (message_of error)) None |}).

End Handlers.
End Server.

(** ** The handlers with the mock-data fallback ([src/unnamed/part_001]) *)

Module ServerAlt.
Section Handlers.
Context (E : Env).

(** Lines 140-195 are lines 77-140 of [src/server.js] without the log lines. *)
Definition basicSeeds := Server.basicSeeds.
Definition applyMood := Server.applyMood.
Definition applyOverrides := Server.applyOverrides.
Definition applyProfile := Server.applyProfile.
Definition personalize := Server.personalize.

(** Lines 197-200: only the genre seed is looked at. *)
Definition defaultGenres (seeds : gmap string value) : gmap string value :=
  if negb (truthy (prop seeds "seed_genres"))
  then <["seed_genres" := VArr [VStr "pop"; VStr "rock"; VStr "hip-hop"]]> seeds
  else seeds.

(** Lines 138-200. *)
Definition buildSeeds (q : RecommendationQuery) : M (gmap string value) :=
  let seeds := basicSeeds q in
  let seeds := applyMood (mood q) seeds in
  let seeds := applyOverrides (energy_level q) (dance_level q) seeds in
  seeds ← personalize (user_id q) seeds;
  mret (defaultGenres seeds).

(** Lines 136-230. When the catalog call throws, the response carries what
    the fallback picks from [mockRecommendations] by [mood] and
    [energy_level] and then shuffles with [Math.random]. *)
Definition recommendations (q : RecommendationQuery) : M Response :=
  try_catch
    (seeds ← buildSeeds q;
     try_catch
       (recs ← SpotifyAlt.getRecommendations E seeds;
        mret {| status := 200; json := FallbackJson recs seeds false |})
       (fun _ =>
          mret {| status := 200;
                  json := FallbackJson (mockSelection E (mood q) (energy_level q))
                            seeds true |}))
    (fun _ =>
       mret {| status := 500; json := ErrorJson "Failed to get recommendations" None None |}).

(** Lines 249-276, 328-354 and 374-391 are lines 194-221, 273-299 and
    319-336 of [src/server.js]. *)
Definition createUser := Server.createUser E.
Definition addFavorite := Server.addFavorite E.
Definition removeFavorite := Server.removeFavorite.

End Handlers.
End ServerAlt.

(** ** Concrete surroundings for the examples *)

Module Demo.

(** A printer that knows the numerals of the examples. *)
Definition print (f : float) : string :=
  if PrimFloat.eqb f 0.1 then "0.1"
  else if PrimFloat.eqb f 0.8 then "0.8"
  else if PrimFloat.eqb f 0.9 then "0.9"
  else if PrimFloat.eqb f 80 then "80"
  else if PrimFloat.eqb f 20 then "20"
  else if PrimFloat.eqb f 5 then "5"
  else "0.5".

Definition catalog : value :=
  VArr [VObj [("id", VStr "t1"); ("name", VStr "One")];
        VObj [("id", VStr "t2"); ("name", VStr "Two")]].

(** Both hosts answer every request with status 200: the token endpoint
    with a one-hour token, the catalog with two tracks. *)
Definition env : Env :=
  {| Number_toString := print;
     auth_server := fun _ _ =>
       {| elapsed := 40;
          reply := Ended 200 (Parsed {| access_token := Some "BQDtoken";
                                        expires_in := 3600 |}) |};
     api_server := fun _ r =>
       {| elapsed := 120;
          reply := Ended 200 (Parsed (VObj
                     [("tracks",
                       if String.prefix "/v1/search" (path r)
                       then VObj [("items", catalog)] else catalog)])) |};
     basic_auth := "aWQ6c2VjcmV0";
     ObjectId := fun n => "user" ++ pretty n;
     mockSelection := fun _ _ => VArr [] |}.

Definition saved : TrackRef :=
  {| trackId := VStr "t1"; trackName := VStr "One"; artist := VStr "A";
     album := VStr "LP"; imageUrl := VStr "i"; previewUrl := VStr "p";
     savedAt := 1500 |}.

Definition alice : User :=
  {| uid := "user0"; name := "Alice"; email := "alice@example.org";
     favoriteGenres := ["jazz"; "soul"; "funk"; "blues"];
     savedTracks := [saved]; playlists := [];
     preferences := Some {| energy := 0.25; danceability := 0.5; valence := 0.75 |};
     createdAt := 1000 |}.

Definition world : World :=
  {| accessToken := None; tokenExpiry := None; now := 1700000000000;
     sent := []; db := {| users := [alice]; refusal := None |} |}.

(** The same process a little later, holding the token of [env]. *)
Definition warm : World :=
  {| accessToken := Some "BQDtoken"; tokenExpiry := Some 1700003540040;
     now := 1700000000160; sent := []; db := {| users := [alice]; refusal := None |} |}.

End Demo.

(** ** The words of the specification *)

(** The mood table of the specification: the fields a mood keyword sets. *)
Definition mood_table (mood : option string) : list (string * float) :=
  match mood with
  | None => []
  | Some m =>
      if String.eqb m "happy" then [("target_valence", 0.8); ("target_energy", 0.7)]
      else if String.eqb m "sad" then [("target_valence", 0.2); ("target_energy", 0.3)]
      else if String.eqb m "energetic" then
        [("target_energy", 0.9); ("target_danceability", 0.8)]
      else if String.eqb m "chill" then [("target_valence", 0.5); ("target_energy", 0.3)]
      else if String.eqb m "focus" then
        [("target_valence", 0.6); ("target_energy", 0.4); ("min_instrumentalness", 0.3)]
      else []
  end%float.

Definition mood_keywords : list string :=
  ["happy"; "sad"; "energetic"; "chill"; "focus"].

(** The entry of field [k] in a row of the table. *)
Fixpoint entry (k : string) (row : list (string * float)) : option float :=
  match row with
  | [] => None
  | (k', f) :: rest => if String.eqb k k' then Some f else entry k rest
  end.

(** The document a request's [user_id] finds, when it names one and the
    lookup answers. *)
Definition profileOf (q : RecommendationQuery) (w : World) : option User :=
  match user_id q with
  | Some id =>
      if String.eqb id "" then None
      else match findById id w with
           | (Return (Some u), _) => Some u
           | _ => None
           end
  | None => None
  end.

(** A request resolves a profile when that document has preferences. *)
Definition resolvedProfile (q : RecommendationQuery) (w : World)
    : option (User * Preferences) :=
  match profileOf q w with
  | Some u =>
      match preferences u with
      | Some p => Some (u, p)
      | None => None
      end
  | None => None
  end.

(** The seed object after the seed, mood and override steps. *)
Definition requestSeeds (q : RecommendationQuery) : gmap string value :=
  Server.applyOverrides (energy_level q) (dance_level q)
    (Server.applyMood (mood q) (Server.basicSeeds q)).

Definition default_genres : value := VArr [VStr "pop"; VStr "rock"; VStr "hip-hop"].

(** The three seed parameters and the twelve tunable parameters that the
    specification lists for the recommendations request. *)
Definition seed_keys : list string := ["seed_genres"; "seed_artists"; "seed_tracks"].

Definition tunable_keys : list string :=
  ["target_energy"; "target_danceability"; "target_valence"; "target_popularity";
   "min_energy"; "max_energy"; "min_danceability"; "max_danceability";
   "min_valence"; "max_valence"; "min_tempo"; "max_tempo"].

Definition is_seed_key (k : string) : bool := existsb (String.eqb k) seed_keys.

(** The seed parameters among the parameters of a request. *)
Definition seedParams (ps : URLSearchParams) : URLSearchParams :=
  List.filter (fun '(k, _) => is_seed_key k) ps.

Section SpecParams.
Context (E : Env).

(** One seed kind, comma-joined: genres before artists before tracks, the
    default genres when there is none. *)
Definition chosenSeed (seeds : gmap string value) : string * string :=
  let text k := toString (Number_toString E) (joined (Number_toString E) (prop seeds k)) in
  if truthy (prop seeds "seed_genres") then ("seed_genres", text "seed_genres")
  else if truthy (prop seeds "seed_artists") then ("seed_artists", text "seed_artists")
  else if truthy (prop seeds "seed_tracks") then ("seed_tracks", text "seed_tracks")
  else ("seed_genres", "pop,rock,hip-hop").

(** A tunable parameter is serialised only when the seed defines it. *)
Definition tunableParam (seeds : gmap string value) (k : string) : URLSearchParams :=
  match prop seeds k with
  | VUndef => []
  | v => [(k, toString (Number_toString E) v)]
  end.

(** The parameters of the recommendations request as the specification
    words them. *)
Definition spec_params (seeds : gmap string value) : URLSearchParams :=
  (chosenSeed seeds :: flat_map (tunableParam seeds) tunable_keys
   ++ [("limit", "20"); ("market", "US")])%list.

End SpecParams.

(** The states of the token cache that the client can be in: both module
    variables [null], or a non-empty token with its expiry. *)
Definition cache_ok (w : World) : Prop :=
  match accessToken w, tokenExpiry w with
  | None, None => True
  | Some token, Some _ => token <> ""
  | _, _ => False
  end.

(** The cache is empty, or its token is due for renewal. *)
Definition stale (w : World) : Prop :=
  accessToken w = None \/ exists expiry : Z, tokenExpiry w = Some expiry /\ expiry <= now w.

(** [trackId] is unique within a profile's saved tracks, and within every
    stored profile's. *)
Definition unique_tracks (u : User) : Prop := NoDup (map trackId (savedTracks u)).

Definition db_unique (d : Db) : Prop := Forall unique_tracks (users d).

(** The same request without its [user_id]. *)
Definition anonymous (q : RecommendationQuery) : RecommendationQuery :=
  {| seed_genres := seed_genres q; seed_artists := seed_artists q;
     seed_tracks := seed_tracks q; user_id := None; mood := mood q;
     energy_level := energy_level q; dance_level := dance_level q |}.

(** What [searchTracks] makes of the parsed response. *)
Definition search_result (data : value) : Outcome value :=
  match get data "tracks" with
  | inl e => Throw e
  | inr found =>
      if truthy found then
        match get found "items" with
        | inl e => Throw e
        | inr items =>
            if truthy items then Return items
            else Throw (Error "Invalid search response format")
        end
      else Throw (Error "Invalid search response format")
  end.

(** ** The requests of the examples *)

(** The request of the specification's ninth example. *)
Definition happy_low_energy : RecommendationQuery :=
  {| seed_genres := None; seed_artists := None; seed_tracks := None;
     user_id := None; mood := Some "happy"; energy_level := Some "0.1";
     dance_level := None |}.

(** The request of the specification's eighth example. *)
Definition energetic : RecommendationQuery :=
  {| seed_genres := None; seed_artists := None; seed_tracks := None;
     user_id := None; mood := Some "energetic"; energy_level := None;
     dance_level := None |}.

(** A request seeded by one artist only. *)
Definition by_artist : RecommendationQuery :=
  {| seed_genres := None; seed_artists := Some "4NHQUGzhtTLFvgF5SZesLK";
     seed_tracks := None; user_id := None; mood := None; energy_level := None;
     dance_level := None |}.

(** A request that names the stored profile of [Demo.world] and passes seeds
    and parameters of its own. *)
Definition alice_request : RecommendationQuery :=
  {| seed_genres := Some "metal"; seed_artists := Some "a1,a2"; seed_tracks := None;
     user_id := Some "user0"; mood := Some "focus"; energy_level := Some "0.1";
     dance_level := None |}.

(** A request that names a profile nobody stored. *)
Definition stranger : RecommendationQuery :=
  {| seed_genres := None; seed_artists := None; seed_tracks := None;
     user_id := Some "nobody"; mood := Some "chill"; energy_level := None;
     dance_level := None |}.

(** A request that passes a genre seed and an artist seed, and the seed
    object both handlers build for it. *)
Definition pop_and_artist : RecommendationQuery :=
  {| seed_genres := Some "pop"; seed_artists := Some "4NHQUGzhtTLFvgF5SZesLK";
     seed_tracks := None; user_id := None; mood := None; energy_level := None;
     dance_level := None |}.

(** A body that names the saved track of [Demo.alice], and one whose
    [trackId] is the number 5. *)
Definition again : NewFavorite :=
  {| fav_trackId := VStr "t1"; fav_name := VStr "One"; fav_artist := VStr "A";
     fav_album := VStr "LP"; fav_imageUrl := VStr "i"; fav_previewUrl := VStr "p" |}.

Definition five : NewFavorite :=
  {| fav_trackId := VNum 5; fav_name := VStr "Five"; fav_artist := VStr "B";
     fav_album := VStr "EP"; fav_imageUrl := VUndef; fav_previewUrl := VNull |}.

Definition two_kinds : gmap string value :=
  <["seed_artists" := VArr [VStr "4NHQUGzhtTLFvgF5SZesLK"]]>
    (<["seed_genres" := VArr [VStr "pop"]]> ∅).

(** ** Further helpers of the engine *)

Module MathJs.

Definition is_neg_zero (x : float) : bool :=
  match PrimFloat.classify x with NZero => true | _ => false end.

Definition is_pos_zero (x : float) : bool :=
  match PrimFloat.classify x with PZero => true | _ => false end.

(** [Math.min(a, b)] on numbers: [NaN] when either is, and [-0] below [+0]. *)
Definition min (a b : float) : float :=
  if PrimFloat.is_nan a || PrimFloat.is_nan b then nan
  else if PrimFloat.leb b a then
    if PrimFloat.leb a b then (if is_neg_zero a then a else b) else b
  else a.

(** [Math.max(a, b)] on numbers. *)
Definition max (a b : float) : float :=
  if PrimFloat.is_nan a || PrimFloat.is_nan b then nan
  else if PrimFloat.leb a b then
    if PrimFloat.leb b a then (if is_pos_zero a then a else b) else b
  else a.

End MathJs.

(** ** The routes and functions not named by the claims *)

(** Lines 551-563 and 578-590 of [src/spotify.js] are lines 241-248 and
    258-265 inside a [try] whose [catch] rethrows. *)
Module SpotifyAltLookups.
Section Client.
Context (E : Env).

Definition getTrackFeatures (trackIds : value) : M value :=
  Spotify.getTrackFeatures E trackIds.

Definition getTracks (trackIds : value) : M value := Spotify.getTracks E trackIds.

End Client.
End SpotifyAltLookups.

(** The body of [PUT /api/users/:userId/preferences]: JSON numbers and a list
    of strings, each possibly absent. *)
Record PreferencesUpdate := {
  upd_energy : option float;
  upd_danceability : option float;
  upd_valence : option float;
  upd_favoriteGenres : option (list string)
}.

(** What that route answers: the 200 object with the profile's preferences
    and genres, or an error response. *)
Inductive PreferencesAnswer :=
| PreferencesUpdated (preferences : option Preferences) (favoriteGenres : list string)
| PreferencesRefused (r : Response).

Module Profiles.

(** [Math.max(0, Math.min(1, x))]. *)
Definition clamp (x : float) : float := MathJs.max 0 (MathJs.min 1 x).

Definition set_energy (x : float) (p : Preferences) : Preferences :=
  {| energy := x; danceability := danceability p; valence := valence p |}.

Definition set_danceability (x : float) (p : Preferences) : Preferences :=
  {| energy := energy p; danceability := x; valence := valence p |}.

Definition set_valence (x : float) (p : Preferences) : Preferences :=
  {| energy := energy p; danceability := danceability p; valence := x |}.

Definition set_profile (p : option Preferences) (genres : list string) (u : User) : User :=
  {| uid := uid u; name := name u; email := email u; favoriteGenres := genres;
     savedTracks := savedTracks u; playlists := playlists u; preferences := p;
     createdAt := createdAt u |}.

(** [if (x !== undefined) user.preferences.k = clamp(x)]: writing a property
    of an absent [preferences] object throws. *)
Definition assign (x : option float) (set : float -> Preferences -> Preferences)
    (p : option Preferences) : M (option Preferences) :=
  match x with
  | None => mret p
  | Some v =>
      match p with
      | Some p' => mret (Some (set (clamp v) p'))
      | None => throw (TypeError "Cannot set properties of undefined")
      end
  end.

(** [src/server.js] lines 241-270; [src/unnamed/part_001] lines 296-325 are
    the same text. *)
Definition updatePreferences (userId : string) (body : PreferencesUpdate)
    : M PreferencesAnswer :=
  try_catch
    (found ← findById userId;
     match found with
     | None =>
         mret (PreferencesRefused
                 {| status := 404; json := ErrorJson "User not found" None None |})
     | Some user =>
         p ← assign (upd_energy body) set_energy (preferences user);
         p ← assign (upd_danceability body) set_danceability p;
         p ← assign (upd_valence body) set_valence p;
         let genres := default (favoriteGenres user) (upd_favoriteGenres body) in
         save false (set_profile p genres user);;
         mret (PreferencesUpdated p genres)
     end)
    (fun _ =>
       mret (PreferencesRefused
               {| status := 500;
                  json := ErrorJson "Failed to update preferences" None None |})).

End Profiles.

(** The catalog request of [makeSpotifyRequest] for a token and an endpoint. *)
Definition catalogRequest (token endpoint : string) : Request :=
  {| hostname := "api.spotify.com";
     port := 443;
     path := endpoint;
     method := "GET";
     headers := [("Authorization", "Bearer " ++ token);
                 ("Content-Type", "application/json");
                 ("Accept", "application/json")];
     written := "" |}.

(** A preference value between 0 and 1, and a store all of whose
    preferences are. *)
Definition in_unit (x : float) : bool := PrimFloat.leb 0 x && PrimFloat.leb x 1.

Definition prefs_in_unit (u : User) : Prop :=
  match preferences u with
  | Some p =>
      in_unit (energy p) = true /\ in_unit (danceability p) = true
      /\ in_unit (valence p) = true
  | None => True
  end.

(** Identifiers and emails identify the stored profiles. *)
Definition keys_unique (d : Db) : Prop :=
  NoDup (map uid (users d)) /\ NoDup (map email (users d)).

(** ** Further surroundings and words *)

Module Cases.

(** The surroundings of [Demo.env] with a token endpoint that rejects the
    credentials. *)
Definition offline : Env :=
  {| Number_toString := Demo.print;
     auth_server := fun _ _ => {| elapsed := 35; reply := Ended 401 Blank |};
     api_server := api_server Demo.env;
     basic_auth := "d3Jvbmc6d3Jvbmc=";
     ObjectId := ObjectId Demo.env;
     mockSelection := fun _ _ => Demo.catalog |}.

(** A body for a second track. *)
Definition second : NewFavorite :=
  {| fav_trackId := VStr "t2"; fav_name := VStr "Two"; fav_artist := VStr "B";
     fav_album := VStr "EP"; fav_imageUrl := VStr "j"; fav_previewUrl := VStr "q" |}.

(** A body for a new profile, and an update of its preferences. *)
Definition bob : NewUser :=
  {| new_name := "Bob"; new_email := "bob@example.org"; new_favoriteGenres := None |}.

Definition louder : PreferencesUpdate :=
  {| upd_energy := Some 1.5%float; upd_danceability := None;
     upd_valence := Some (-0.25)%float; upd_favoriteGenres := Some ["metal"] |}.

End Cases.

(** A computation after which the store is what it was before. *)
Definition keeps_store {A : Type} (m : M A) : Prop :=
  forall w : World, db (snd (m w)) = db w.

(** * Part II: theorems *)

(** Case analysis on which field name [k] is, among those the goal compares
    it with. *)
Ltac case_key k :=
  repeat match goal with
         | |- context [String.eqb k ?s] =>
             destruct (String.eqb_spec k s) as [->|?]; cbn
         end.

(** One step of a computation: sequencing and [try]/[catch] are unfolded. *)
Ltac step := unfold try_catch, mbind, M_bind.

(** ** The mood step *)

Lemma lookup_insert_eqb (k k' : string) (v : value) (m : gmap string value) :
  <[k' := v]> m !! k = if String.eqb k k' then Some v else m !! k.
Proof.
  destruct (String.eqb_spec k k') as [->|Hne].
  - apply lookup_insert_eq.
  - apply lookup_insert_ne. congruence.
Qed.

Lemma applyMood_lookup (mood : option string) (seeds : gmap string value) (k : string) :
  Server.applyMood mood seeds !! k =
    match entry k (mood_table mood) with
    | Some f => Some (VNum f)
    | None => seeds !! k
    end.
Proof.
  unfold Server.applyMood, mood_table.
  destruct mood as [m|]; [|reflexivity].
  repeat match goal with
         | |- context [String.eqb m ?s] => destruct (String.eqb m s)
         end;
    cbn [entry]; rewrite ?lookup_insert_eqb;
    case_key k; reflexivity.
Qed.

(** C1. For each of the five mood keywords the mood step writes exactly the
    fields of the specification's table, with the table's values, and leaves
    every other field of the seed object as it was; for any other keyword, and
    without a keyword, it leaves the whole object as it was. Both servers
    run the same step. *)
Theorem mood_step_follows_table (m : string) (seeds : gmap string value) :
  (forall k : string,
      Server.applyMood (Some m) seeds !! k =
        match entry k (mood_table (Some m)) with
        | Some f => Some (VNum f)
        | None => seeds !! k
        end)
  /\ (m ∈ mood_keywords \/ Server.applyMood (Some m) seeds = seeds)
  /\ Server.applyMood None seeds = seeds
  /\ ServerAlt.applyMood = Server.applyMood.
Proof.
  repeat split.
  - intros k. apply applyMood_lookup.
  - unfold Server.applyMood, mood_keywords.
    rewrite !elem_of_cons, elem_of_nil.
    destruct (String.eqb_spec m "happy") as [->|_]; [tauto|].
    destruct (String.eqb_spec m "sad") as [->|_]; [tauto|].
    destruct (String.eqb_spec m "energetic") as [->|_]; [tauto|].
    destruct (String.eqb_spec m "chill") as [->|_]; [tauto|].
    destruct (String.eqb_spec m "focus") as [->|_]; [tauto|].
    right; reflexivity.
Qed.

(** ** The seed builder, step by step *)

Lemma personalize_profileOf (q : RecommendationQuery) (seeds : gmap string value)
    (w : World) :
  Server.personalize (user_id q) seeds w
  = (Return (Server.applyProfile (profileOf q w) seeds), w).
Proof.
  unfold Server.personalize, profileOf.
  destruct (user_id q) as [id|]; [|reflexivity].
  destruct (String.eqb id ""); [reflexivity|].
  unfold try_catch, mbind, M_bind, mret, M_ret, findById.
  destruct (refusal (db w)); [reflexivity|].
  destruct (List.find _ _); reflexivity.
Qed.

Lemma buildSeeds_steps (q : RecommendationQuery) (w : World) :
  Server.buildSeeds q w
  = (Return (Server.defaultGenres
               (Server.applyProfile (profileOf q w) (requestSeeds q))), w)
  /\ ServerAlt.buildSeeds q w
    = (Return (ServerAlt.defaultGenres
                 (Server.applyProfile (profileOf q w) (requestSeeds q))), w).
Proof.
  unfold Server.buildSeeds, ServerAlt.buildSeeds, ServerAlt.personalize, requestSeeds.
  unfold mbind, M_bind.
  rewrite !personalize_profileOf. split; reflexivity.
Qed.

Lemma defaultGenres_other (seeds : gmap string value) (k : string) :
  k <> "seed_genres" ->
  Server.defaultGenres seeds !! k = seeds !! k
  /\ ServerAlt.defaultGenres seeds !! k = seeds !! k.
Proof.
  intros Hk. unfold Server.defaultGenres, ServerAlt.defaultGenres.
  split.
  - destruct (_ && _); [|reflexivity]. apply lookup_insert_ne. congruence.
  - destruct (negb _); [|reflexivity]. apply lookup_insert_ne. congruence.
Qed.

Lemma applyOverrides_energy (e : string) (d : option string) (seeds : gmap string value) :
  e <> "" ->
  Server.applyOverrides (Some e) d seeds !! "target_energy" = Some (VNum (parseFloat e)).
Proof.
  intros He. unfold Server.applyOverrides.
  destruct (String.eqb_spec e ""); [contradiction|].
  destruct d as [d|]; [destruct (String.eqb d "")|];
    rewrite ?lookup_insert_eqb; cbn; rewrite ?lookup_insert_eq; reflexivity.
Qed.

Lemma applyOverrides_dance (e : option string) (d : string) (seeds : gmap string value) :
  d <> "" ->
  Server.applyOverrides e (Some d) seeds !! "target_danceability"
  = Some (VNum (parseFloat d)).
Proof.
  intros Hd. unfold Server.applyOverrides.
  destruct (String.eqb_spec d ""); [contradiction|].
  apply lookup_insert_eq.
Qed.

Lemma applyOverrides_other (e d : option string) (seeds : gmap string value) (k : string) :
  (k = "target_energy" -> given e = false) ->
  (k = "target_danceability" -> given d = false) ->
  Server.applyOverrides e d seeds !! k = seeds !! k.
Proof.
  intros He Hd. unfold Server.applyOverrides, given in *.
  destruct d as [d|]; [destruct (String.eqb d "")|];
    (destruct e as [e|]; [destruct (String.eqb e "")|]);
    rewrite ?lookup_insert_eqb;
    case_key k;
    try reflexivity;
    try (specialize (He eq_refl); discriminate);
    try (specialize (Hd eq_refl); discriminate).
Qed.

Lemma applyProfile_unresolved (q : RecommendationQuery) (w : World)
    (seeds : gmap string value) :
  resolvedProfile q w = None ->
  Server.applyProfile (profileOf q w) seeds = seeds.
Proof.
  unfold resolvedProfile, Server.applyProfile.
  destruct (profileOf q w) as [u|]; [|reflexivity].
  destruct (preferences u); [discriminate|reflexivity].
Qed.

(** ** Explicit overrides and the mood *)

(** C2. When a request resolves no profile, an explicit [energy_level]
    (respectively [dance_level]) ends up as the seed's [target_energy]
    (respectively [target_danceability]), parsed by [parseFloat], whatever
    the mood wrote there; every other field the mood wrote keeps the mood's
    value. In particular [mood=happy&energy_level=0.1] gives
    [target_valence] 0.8 and [target_energy] 0.1. Both servers. *)
Theorem explicit_overrides_beat_mood (q : RecommendationQuery) (w : World) :
  resolvedProfile q w = None ->
  exists seeds seedsAlt : gmap string value,
    Server.buildSeeds q w = (Return seeds, w)
    /\ ServerAlt.buildSeeds q w = (Return seedsAlt, w)
    /\ (forall e : string, energy_level q = Some e -> e <> "" ->
          seeds !! "target_energy" = Some (VNum (parseFloat e))
          /\ seedsAlt !! "target_energy" = Some (VNum (parseFloat e)))
    /\ (forall d : string, dance_level q = Some d -> d <> "" ->
          seeds !! "target_danceability" = Some (VNum (parseFloat d))
          /\ seedsAlt !! "target_danceability" = Some (VNum (parseFloat d)))
    /\ (forall (k : string) (f : float),
          entry k (mood_table (mood q)) = Some f ->
          (k = "target_energy" -> given (energy_level q) = false) ->
          (k = "target_danceability" -> given (dance_level q) = false) ->
          seeds !! k = Some (VNum f) /\ seedsAlt !! k = Some (VNum f))
    /\ (forall w' : World,
          Server.buildSeeds happy_low_energy w'
          = (Return (<["target_energy" := VNum 0.1]>
                       (<["target_valence" := VNum 0.8]>
                          (<["seed_genres" := default_genres]> ∅))), w')
          /\ ServerAlt.buildSeeds happy_low_energy w'
            = Server.buildSeeds happy_low_energy w').
Proof.
  intros Hnone.
  destruct (buildSeeds_steps q w) as [HA HB].
  rewrite (applyProfile_unresolved q w _ Hnone) in HA, HB.
  eexists _, _. split; [exact HA|]. split; [exact HB|].
  assert (Hkeep : forall k v,
             k <> "seed_genres" -> requestSeeds q !! k = Some v ->
             Server.defaultGenres (requestSeeds q) !! k = Some v
             /\ ServerAlt.defaultGenres (requestSeeds q) !! k = Some v).
  { intros k v Hk Hv. destruct (defaultGenres_other (requestSeeds q) k Hk) as [-> ->].
    split; exact Hv. }
  assert (Hmood : forall k f, entry k (mood_table (mood q)) = Some f -> k <> "seed_genres").
  { intros k f Hf ->. revert Hf. unfold mood_table.
    destruct (mood q) as [m|]; [|discriminate].
    repeat destruct (String.eqb m _); discriminate. }
  split; [|split; [|split]].
  - intros e He Hne. apply Hkeep; [discriminate|]. unfold requestSeeds. rewrite He.
    apply applyOverrides_energy; assumption.
  - intros d Hd Hne. apply Hkeep; [discriminate|]. unfold requestSeeds. rewrite Hd.
    apply applyOverrides_dance; assumption.
  - intros k f Hf He Hd. apply Hkeep; [eapply Hmood; eassumption|].
    unfold requestSeeds. rewrite applyOverrides_other by assumption.
    rewrite applyMood_lookup, Hf. reflexivity.
  - intros w'. destruct (buildSeeds_steps happy_low_energy w') as [-> ->].
    split; [|reflexivity]. f_equal.
Qed.

Lemma explicit_overrides_witness :
  resolvedProfile happy_low_energy Demo.world = None
  /\ exists seeds : gmap string value,
      Server.buildSeeds happy_low_energy Demo.world = (Return seeds, Demo.world)
      /\ seeds !! "target_energy" = Some (VNum 0.1)
      /\ seeds !! "target_valence" = Some (VNum 0.8).
Proof.
  split; [reflexivity|].
  destruct (explicit_overrides_beat_mood happy_low_energy Demo.world eq_refl)
    as (seeds & seedsAlt & HA & _ & He & _ & Hm & _).
  exists seeds. split; [exact HA|]. split.
  - apply (He "0.1"); [reflexivity|discriminate].
  - apply (Hm "target_valence" 0.8%float); [reflexivity|discriminate|discriminate].
Defined.

(** ** The profile step *)

Lemma resolvedProfile_Some (q : RecommendationQuery) (w : World) (u : User)
    (p : Preferences) :
  resolvedProfile q w = Some (u, p) ->
  profileOf q w = Some u /\ preferences u = Some p.
Proof.
  unfold resolvedProfile. destruct (profileOf q w) as [u'|]; [|discriminate].
  destruct (preferences u') as [p'|] eqn:Hp; [|discriminate].
  intros [= <- <-]. split; [reflexivity|exact Hp].
Qed.

Lemma applyProfile_targets (u : User) (p : Preferences) (seeds : gmap string value) :
  preferences u = Some p ->
  Server.applyProfile (Some u) seeds !! "target_energy" = Some (VNum (energy p))
  /\ Server.applyProfile (Some u) seeds !! "target_danceability"
     = Some (VNum (danceability p))
  /\ Server.applyProfile (Some u) seeds !! "target_valence" = Some (VNum (valence p)).
Proof.
  intros Hp. unfold Server.applyProfile. rewrite Hp.
  destruct (favoriteGenres u); rewrite ?lookup_insert_eqb; cbn; repeat split.
Qed.

Lemma applyProfile_genres (u : User) (p : Preferences) (seeds : gmap string value) :
  preferences u = Some p ->
  favoriteGenres u <> [] ->
  Server.applyProfile (Some u) seeds !! "seed_genres"
  = Some (VArr (map VStr (take 3 (favoriteGenres u)))).
Proof.
  intros Hp Hg. unfold Server.applyProfile. rewrite Hp.
  destruct (favoriteGenres u); [contradiction|]. apply lookup_insert_eq.
Qed.

Lemma applyProfile_other (user : option User) (seeds : gmap string value) (k : string) :
  k <> "seed_genres" -> k <> "target_energy" -> k <> "target_danceability" ->
  k <> "target_valence" ->
  Server.applyProfile user seeds !! k = seeds !! k.
Proof.
  intros H1 H2 H3 H4. unfold Server.applyProfile.
  destruct user as [u|]; [|reflexivity].
  destruct (preferences u); [|reflexivity].
  destruct (favoriteGenres u); rewrite ?lookup_insert_eqb;
    repeat match goal with
           | |- context [String.eqb k ?s] =>
               destruct (String.eqb_spec k s) as [->|?]; [contradiction|]
           end; reflexivity.
Qed.

Lemma defaultGenres_array (seeds : gmap string value) (items : list value) :
  seeds !! "seed_genres" = Some (VArr items) ->
  Server.defaultGenres seeds = seeds /\ ServerAlt.defaultGenres seeds = seeds.
Proof.
  intros H. unfold Server.defaultGenres, ServerAlt.defaultGenres, prop.
  rewrite H. split; reflexivity.
Qed.

Lemma toString_strings (nts : float -> string) (l : list string) :
  toString nts (joined nts (VArr (map VStr l))) = join "," l.
Proof.
  cbn. f_equal. induction l as [|x l IH]; [reflexivity|]. cbn. f_equal. exact IH.
Qed.

Lemma appendDefined_app (E : Env) (seeds : gmap string value) (k : string)
    (ps : URLSearchParams) :
  Spotify.appendDefined E seeds k ps = (ps ++ tunableParam E seeds k)%list.
Proof.
  unfold Spotify.appendDefined, append, tunableParam.
  destruct (prop seeds k); rewrite ?app_nil_r; reflexivity.
Qed.

(** The first client builds the parameters the specification lists. *)
Lemma recommendationParams_spec (E : Env) (seeds : gmap string value) :
  Spotify.recommendationParams E seeds = spec_params E seeds.
Proof.
  unfold Spotify.recommendationParams, spec_params, chosenSeed, tunable_keys.
  rewrite !appendDefined_app. unfold append. cbn [flat_map].
  destruct (truthy (prop seeds "seed_genres"));
    [|destruct (truthy (prop seeds "seed_artists"));
      [|destruct (truthy (prop seeds "seed_tracks"))]];
    rewrite <- !app_assoc; reflexivity.
Qed.

Lemma chosenSeed_is_seed (E : Env) (seeds : gmap string value) :
  is_seed_key (fst (chosenSeed E seeds)) = true.
Proof.
  unfold chosenSeed.
  destruct (truthy (prop seeds "seed_genres")); [reflexivity|].
  destruct (truthy (prop seeds "seed_artists")); [reflexivity|].
  destruct (truthy (prop seeds "seed_tracks")); reflexivity.
Qed.

Lemma seedParams_tunableParam (E : Env) (seeds : gmap string value) (k : string) :
  is_seed_key k = false -> seedParams (tunableParam E seeds k) = [].
Proof.
  intros Hk. unfold tunableParam, seedParams.
  destruct (prop seeds k); cbn [List.filter]; rewrite ?Hk; reflexivity.
Qed.

Lemma seedParams_app (ps qs : URLSearchParams) :
  seedParams (ps ++ qs)%list = (seedParams ps ++ seedParams qs)%list.
Proof. apply List.filter_app. Qed.

Lemma tunable_not_seed (E : Env) (seeds : gmap string value) :
  seedParams (flat_map (tunableParam E seeds) tunable_keys) = [].
Proof.
  unfold tunable_keys. cbn [flat_map]. rewrite !seedParams_app.
  rewrite !seedParams_tunableParam by reflexivity. reflexivity.
Qed.

Lemma seedParams_spec (E : Env) (seeds : gmap string value) :
  seedParams (Spotify.recommendationParams E seeds) = [chosenSeed E seeds].
Proof.
  rewrite recommendationParams_spec. unfold spec_params.
  change (chosenSeed E seeds :: ?l)%list with ([chosenSeed E seeds] ++ l)%list.
  rewrite !seedParams_app, tunable_not_seed.
  pose proof (chosenSeed_is_seed E seeds) as Hk.
  destruct (chosenSeed E seeds) as [k v]. cbn [fst] in Hk.
  unfold seedParams. cbn [List.filter]. rewrite Hk. reflexivity.
Qed.

(** The seed, mood and override steps leave a seed field as the request
    gave it. *)
Lemma requestSeeds_seed (q : RecommendationQuery) (k : string) :
  is_seed_key k = true -> requestSeeds q !! k = Server.basicSeeds q !! k.
Proof.
  intros Hk. unfold requestSeeds, is_seed_key, seed_keys in *. cbn in Hk.
  rewrite applyOverrides_other, applyMood_lookup.
  - destruct (mood q) as [m|]; [|reflexivity]. unfold mood_table.
    repeat destruct (String.eqb m _); cbn [entry];
      repeat match goal with
             | |- context [String.eqb k ?s] =>
                 destruct (String.eqb_spec k s) as [->|?]; [discriminate|]
             end; reflexivity.
  - intros ->. discriminate.
  - intros ->. discriminate.
Qed.

(** C3. When a request resolves a profile, the seed's [target_energy],
    [target_danceability] and [target_valence] are the profile's stored
    energy, danceability and valence, whatever the mood and the explicit
    parameters were; and when the profile has a favorite genre, the seed's
    [seed_genres] is the list of its first three favorite genres at most,
    whatever genre seed the request passed. Both servers. The request's
    [seed_artists] and [seed_tracks] stay in the seed object of both
    handlers. The first client sends the profile's genres as the only seed
    parameter, so that there the seeds of the request are discarded; the
    second client sends the request's artists and tracks besides: for
    [alice_request] the handler of [src/unnamed/part_001] with the second
    client sends [seed_artists=a1,a2] next to the profile's genres. *)
Theorem profile_overrides_request (E : Env) (q : RecommendationQuery) (w : World)
    (u : User) (p : Preferences) :
  resolvedProfile q w = Some (u, p) ->
  (exists seeds seedsAlt : gmap string value,
    Server.buildSeeds q w = (Return seeds, w)
    /\ ServerAlt.buildSeeds q w = (Return seedsAlt, w)
    /\ (forall s : gmap string value, s = seeds \/ s = seedsAlt ->
          s !! "target_energy" = Some (VNum (energy p))
          /\ s !! "target_danceability" = Some (VNum (danceability p))
          /\ s !! "target_valence" = Some (VNum (valence p))
          /\ (favoriteGenres u <> [] ->
                s !! "seed_genres" = Some (VArr (map VStr (take 3 (favoriteGenres u))))
                /\ (List.length (take 3 (favoriteGenres u)) <= 3)%nat))
    /\ (favoriteGenres u <> [] ->
          seedParams (Spotify.recommendationParams E seeds)
          = [("seed_genres", join "," (take 3 (favoriteGenres u)))])
    /\ (forall s : gmap string value, s = seeds \/ s = seedsAlt ->
          s !! "seed_artists" = Server.basicSeeds q !! "seed_artists"
          /\ s !! "seed_tracks" = Server.basicSeeds q !! "seed_tracks"))
  /\ (exists seeds seedsAlt : gmap string value,
        Server.buildSeeds alice_request Demo.world = (Return seeds, Demo.world)
        /\ ServerAlt.buildSeeds alice_request Demo.world = (Return seedsAlt, Demo.world)
        /\ seeds !! "seed_artists" = Some (VArr [VStr "a1"; VStr "a2"])
        /\ seedsAlt !! "seed_artists" = Some (VArr [VStr "a1"; VStr "a2"])
        /\ seedParams (Spotify.recommendationParams Demo.env seeds)
           = [("seed_genres", "jazz,soul,funk")]
        /\ seedParams (SpotifyAlt.recommendationParams Demo.env seedsAlt)
           = [("seed_genres", "jazz,soul,funk"); ("seed_artists", "a1,a2")]).
Proof.
  intros Hres. split.
  - destruct (resolvedProfile_Some q w u p Hres) as [Hu Hp].
    destruct (buildSeeds_steps q w) as [HA HB]. rewrite Hu in HA, HB.
    set (s0 := Server.applyProfile (Some u) (requestSeeds q)) in *.
    destruct (applyProfile_targets u p (requestSeeds q) Hp) as (He & Hd & Hv).
    fold s0 in He, Hd, Hv.
    assert (Hall : forall s, s = Server.defaultGenres s0 \/ s = ServerAlt.defaultGenres s0 ->
                   forall k, k <> "seed_genres" -> s !! k = s0 !! k).
    { intros s [-> | ->] k Hk; apply defaultGenres_other; exact Hk. }
    assert (Hsg : favoriteGenres u <> [] ->
                  s0 !! "seed_genres" = Some (VArr (map VStr (take 3 (favoriteGenres u))))).
    { intros Hg. apply (applyProfile_genres u p (requestSeeds q) Hp Hg). }
    assert (Hgen : favoriteGenres u <> [] ->
                   Server.defaultGenres s0 = s0 /\ ServerAlt.defaultGenres s0 = s0).
    { intros Hg. eapply defaultGenres_array. apply (Hsg Hg). }
    assert (Hkept : forall k, is_seed_key k = true -> k <> "seed_genres" ->
                    s0 !! k = Server.basicSeeds q !! k).
    { intros k Hk Hne. subst s0. rewrite <- (requestSeeds_seed q k Hk).
      apply applyProfile_other; [exact Hne|..]; intros ->; discriminate. }
    eexists _, _. split; [exact HA|]. split; [exact HB|]. split; [|split].
    + intros s Hs. rewrite !(Hall s Hs) by discriminate.
      split; [exact He|]. split; [exact Hd|]. split; [exact Hv|].
      intros Hg. split.
      * destruct (Hgen Hg) as [H1 H2].
        destruct Hs as [-> | ->]; [rewrite H1|rewrite H2]; apply (Hsg Hg).
      * rewrite length_take. apply Nat.le_min_l.
    + intros Hg. destruct (Hgen Hg) as [-> _].
      rewrite seedParams_spec. f_equal. unfold chosenSeed, prop.
      rewrite (Hsg Hg). cbn [default truthy]. f_equal. apply toString_strings.
    + intros s Hs. rewrite !(Hall s Hs) by discriminate.
      split; apply Hkept; (reflexivity || discriminate).
  - destruct (buildSeeds_steps alice_request Demo.world) as [HA HB].
    eexists _, _. split; [exact HA|]. split; [exact HB|].
    repeat split; vm_compute; reflexivity.
Qed.

Lemma profile_overrides_witness :
  resolvedProfile alice_request Demo.world
  = Some (Demo.alice, {| energy := 0.25; danceability := 0.5; valence := 0.75 |})
  /\ exists seeds : gmap string value,
      Server.buildSeeds alice_request Demo.world = (Return seeds, Demo.world)
      /\ seeds !! "target_energy" = Some (VNum 0.25)
      /\ seeds !! "seed_genres" = Some (VArr [VStr "jazz"; VStr "soul"; VStr "funk"]).
Proof.
  split; [reflexivity|].
  destruct (profile_overrides_request Demo.env alice_request Demo.world Demo.alice
              {| energy := 0.25; danceability := 0.5; valence := 0.75 |} eq_refl)
    as ((seeds & seedsAlt & HA & _ & Hs & _) & _).
  exists seeds. split; [exact HA|].
  destruct (Hs seeds (or_introl eq_refl)) as (He & _ & _ & Hg).
  split; [exact He|]. apply Hg. discriminate.
Defined.

(** ** The default genre seed *)

Lemma basicSeeds_lookup (q : RecommendationQuery) (k : string) :
  Server.basicSeeds q !! k = None
  \/ exists items : list value, Server.basicSeeds q !! k = Some (VArr items).
Proof.
  unfold Server.basicSeeds.
  destruct (seed_genres q) as [g|]; [destruct (String.eqb g "")|];
    (destruct (seed_artists q) as [a|]; [destruct (String.eqb a "")|]);
    (destruct (seed_tracks q) as [t|]; [destruct (String.eqb t "")|]);
    rewrite ?lookup_insert_eqb;
    repeat match goal with
           | |- context [String.eqb k ?s] => destruct (String.eqb k s)
           end; eauto.
Qed.

(** After the seed, mood, override and profile steps a seed field is absent
    or holds an array. *)
Lemma seed_field_array (q : RecommendationQuery) (user : option User) (k : string) :
  is_seed_key k = true ->
  Server.applyProfile user (requestSeeds q) !! k = None
  \/ exists items : list value,
      Server.applyProfile user (requestSeeds q) !! k = Some (VArr items).
Proof.
  intros Hk.
  assert (Hreq : requestSeeds q !! k = Server.basicSeeds q !! k).
  { unfold requestSeeds, is_seed_key, seed_keys in *. cbn in Hk.
    rewrite applyOverrides_other, applyMood_lookup.
    - destruct (mood q) as [m|]; [|reflexivity]. unfold mood_table.
      repeat destruct (String.eqb m _); cbn [entry];
        repeat match goal with
               | |- context [String.eqb k ?s] =>
                   destruct (String.eqb_spec k s) as [->|?]; [discriminate|]
               end; reflexivity.
    - intros ->. discriminate.
    - intros ->. discriminate. }
  destruct (String.eqb_spec k "seed_genres") as [->|Hne].
  - unfold Server.applyProfile.
    destruct user as [u|]; [|rewrite Hreq; apply basicSeeds_lookup].
    destruct (preferences u); [|rewrite Hreq; apply basicSeeds_lookup].
    destruct (favoriteGenres u).
    + rewrite !lookup_insert_ne by discriminate. rewrite Hreq. apply basicSeeds_lookup.
    + right. eexists. apply lookup_insert_eq.
  - rewrite applyProfile_other; [rewrite Hreq; apply basicSeeds_lookup|exact Hne|..];
      intros ->; discriminate.
Qed.

(** In [src/server.js] the default genres are written exactly when none of
    the three seed fields is set after the earlier steps. *)
Lemma default_genres_iff (q : RecommendationQuery) (w : World) :
  let before := Server.applyProfile (profileOf q w) (requestSeeds q) in
  (before !! "seed_genres" = None /\ before !! "seed_artists" = None
   /\ before !! "seed_tracks" = None
   /\ Server.buildSeeds q w = (Return (<["seed_genres" := default_genres]> before), w))
  \/ ((is_Some (before !! "seed_genres") \/ is_Some (before !! "seed_artists")
       \/ is_Some (before !! "seed_tracks"))
      /\ Server.buildSeeds q w = (Return before, w)).
Proof.
  intros before. destruct (buildSeeds_steps q w) as [-> _]. fold before.
  unfold Server.defaultGenres, prop.
  destruct (seed_field_array q (profileOf q w) "seed_genres" eq_refl) as [Hg|[? Hg]];
    fold before in Hg; rewrite Hg; [|right; split; eauto].
  destruct (seed_field_array q (profileOf q w) "seed_artists" eq_refl) as [Ha|[? Ha]];
    fold before in Ha; rewrite Ha; [|right; split; eauto].
  destruct (seed_field_array q (profileOf q w) "seed_tracks" eq_refl) as [Ht|[? Ht]];
    fold before in Ht; rewrite Ht; [|right; split; eauto].
  left. repeat split; reflexivity.
Qed.

Lemma energetic_seed (w : World) :
  Server.buildSeeds energetic w
  = (Return (<["target_energy" := VNum 0.9]>
               (<["target_danceability" := VNum 0.8]>
                  (<["seed_genres" := default_genres]> ∅))), w)
  /\ ServerAlt.buildSeeds energetic w = Server.buildSeeds energetic w.
Proof.
  destruct (buildSeeds_steps energetic w) as [-> ->]. split; [f_equal|reflexivity].
Qed.

(** C4. In [src/server.js] the default genres are written exactly when,
    after the seed, mood, override and profile steps, none of [seed_genres],
    [seed_artists], [seed_tracks] is set, and [mood=energetic] without a user
    gives the seed of the specification's example in both handlers. At the
    request [seed_artists=4NHQUGzhtTLFvgF5SZesLK] the handler of
    [src/server.js] leaves the artist seed alone, while the handler of
    [src/unnamed/part_001] adds the default genres although an artist seed
    is set. *)
Theorem default_genres_when_no_seed (q : RecommendationQuery) (w : World) :
  (let before := Server.applyProfile (profileOf q w) (requestSeeds q) in
   (before !! "seed_genres" = None /\ before !! "seed_artists" = None
    /\ before !! "seed_tracks" = None
    /\ Server.buildSeeds q w = (Return (<["seed_genres" := default_genres]> before), w))
   \/ ((is_Some (before !! "seed_genres") \/ is_Some (before !! "seed_artists")
        \/ is_Some (before !! "seed_tracks"))
       /\ Server.buildSeeds q w = (Return before, w)))
  /\ Server.buildSeeds energetic w
     = (Return (<["target_energy" := VNum 0.9]>
                  (<["target_danceability" := VNum 0.8]>
                     (<["seed_genres" := default_genres]> ∅))), w)
  /\ ServerAlt.buildSeeds energetic w = Server.buildSeeds energetic w
  /\ Server.buildSeeds by_artist w
     = (Return (<["seed_artists" := VArr [VStr "4NHQUGzhtTLFvgF5SZesLK"]]> ∅), w)
  /\ ServerAlt.buildSeeds by_artist w
     = (Return (<["seed_genres" := default_genres]>
                  (<["seed_artists" := VArr [VStr "4NHQUGzhtTLFvgF5SZesLK"]]> ∅)), w).
Proof.
  split; [apply default_genres_iff|].
  destruct (energetic_seed w) as [He HeAlt].
  split; [exact He|]. split; [exact HeAlt|].
  destruct (buildSeeds_steps by_artist w) as [-> ->]. split; f_equal.
Qed.

(** ** The recommendations request *)

Lemma prop_insert_ne (seeds : gmap string value) (k k' : string) (v : value) :
  k <> k' -> prop (<[k := v]> seeds) k' = prop seeds k'.
Proof. intros H. unfold prop. rewrite lookup_insert_ne by exact H. reflexivity. Qed.

(** Fields other than the three seeds and the twelve tunable parameters,
    such as [min_instrumentalness] and [limit], do not reach the request of
    the first client. *)
Lemma recommendationParams_frame (E : Env) (seeds : gmap string value) (k : string)
    (v : value) :
  k ∉ (seed_keys ++ tunable_keys)%list ->
  Spotify.recommendationParams E (<[k := v]> seeds) = Spotify.recommendationParams E seeds.
Proof.
  intros Hk. rewrite !recommendationParams_spec.
  unfold spec_params, chosenSeed, tunable_keys, tunableParam. cbn [flat_map].
  unfold seed_keys, tunable_keys in Hk. cbn [app] in Hk.
  rewrite !elem_of_cons, elem_of_nil in Hk.
  rewrite !prop_insert_ne; [reflexivity|..]; intros ->; apply Hk;
    repeat (first [left; reflexivity | right]).
Qed.

(** In the first client exactly one seed parameter is sent, a tunable
    parameter is sent exactly when the seed defines it, and [limit=20] and
    [market=US] close the list. *)
Lemma recommendationParams_listed (E : Env) (seeds : gmap string value) :
  Spotify.recommendationParams E seeds = spec_params E seeds
  /\ seedParams (Spotify.recommendationParams E seeds) = [chosenSeed E seeds]
  /\ Spotify.recommendationParams E (<["min_instrumentalness" := VNum 0.3]> seeds)
     = Spotify.recommendationParams E seeds
  /\ Spotify.recommendationParams E (<["limit" := VNum 50]> seeds)
     = Spotify.recommendationParams E seeds.
Proof.
  split; [apply recommendationParams_spec|]. split; [apply seedParams_spec|].
  split; apply recommendationParams_frame; unfold seed_keys, tunable_keys; cbn [app];
    rewrite !elem_of_cons, elem_of_nil; intros H;
    repeat (destruct H as [H|H]; [discriminate|]); exact H.
Qed.

(** C5. The first client sends the parameters the specification lists: one
    seed parameter (genres before artists before tracks), each tunable
    parameter exactly when the seed defines it, then [limit=20] and
    [market=US]; [min_instrumentalness] and a caller's [limit] do not reach
    the request. At the request
    [seed_genres=pop&seed_artists=4NHQUGzhtTLFvgF5SZesLK] both handlers
    build a seed object with two seed kinds; the first client sends the genre
    seed alone, the second client sends both kinds. *)
Theorem recommendation_request_parameters (E : Env) (seeds : gmap string value) (w : World) :
  Spotify.recommendationParams E seeds = spec_params E seeds
  /\ seedParams (Spotify.recommendationParams E seeds) = [chosenSeed E seeds]
  /\ Spotify.recommendationParams E (<["min_instrumentalness" := VNum 0.3]> seeds)
     = Spotify.recommendationParams E seeds
  /\ Spotify.recommendationParams E (<["limit" := VNum 50]> seeds)
     = Spotify.recommendationParams E seeds
  /\ Server.buildSeeds pop_and_artist w = (Return two_kinds, w)
  /\ ServerAlt.buildSeeds pop_and_artist w = (Return two_kinds, w)
  /\ Spotify.recommendationParams E two_kinds
     = [("seed_genres", "pop"); ("limit", "20"); ("market", "US")]
  /\ SpotifyAlt.recommendationParams E two_kinds
     = [("seed_genres", "pop"); ("seed_artists", "4NHQUGzhtTLFvgF5SZesLK");
        ("limit", "20"); ("market", "US")].
Proof.
  destruct (recommendationParams_listed E seeds) as (H1 & H2 & H3 & H4).
  split; [exact H1|]. split; [exact H2|]. split; [exact H3|]. split; [exact H4|].
  destruct (buildSeeds_steps pop_and_artist w) as [-> ->].
  split; [f_equal|]. split; [f_equal|]. split; reflexivity.
Qed.

(** ** The token cache *)

Section TokenCache.
Context (E : Env).

Lemma getAccessToken_cached (w : World) (token : string) (expiry : Z) :
  accessToken w = Some token -> token <> "" ->
  tokenExpiry w = Some expiry -> expiry <> 0 -> now w < expiry ->
  Spotify.getAccessToken E w = (Return token, w).
Proof.
  intros Ht Hne He Hz Hlt. unfold Spotify.getAccessToken, mbind, M_bind, get_world.
  rewrite Ht, He.
  destruct (String.eqb_spec token ""); [contradiction|].
  destruct (Z.eqb_spec expiry 0); [contradiction|].
  destruct (Z.ltb_spec (now w) expiry); [reflexivity|lia].
Qed.

(** With a stale cache the call is the exchange. *)
Lemma getAccessToken_stale (w : World) :
  stale w -> cache_ok w ->
  Spotify.getAccessToken E w = Spotify.exchangeToken E w.
Proof.
  intros Hstale Hok. unfold Spotify.getAccessToken, mbind, M_bind, get_world.
  unfold cache_ok in Hok.
  destruct Hstale as [Hnone|(expiry & He & Hle)].
  - rewrite Hnone. reflexivity.
  - rewrite He in *. destruct (accessToken w) as [token|]; [|contradiction].
    destruct (Z.ltb_spec (now w) expiry); [lia|].
    rewrite !andb_false_r. reflexivity.
Qed.

(** What the exchange leaves behind, whatever the reply: the request is in
    the log and the clock has moved; after a 200 response with a non-empty
    token the cache holds that token and the shortened expiry. *)
Lemma exchangeToken_effect (w : World) :
  let t := auth_server E (sent w) (Spotify.tokenRequest E) in
  let w' := snd (Spotify.exchangeToken E w) in
  sent w' = (sent w ++ [Spotify.tokenRequest E])%list
  /\ now w' = now w + elapsed t
  /\ db w' = db w
  /\ forall (token : string) (lifetime : Z),
       reply t = Ended 200 (Parsed {| access_token := Some token;
                                      expires_in := lifetime |}) ->
       token <> "" ->
       fst (Spotify.exchangeToken E w) = Return token
       /\ accessToken w' = Some token
       /\ tokenExpiry w' = Some (now w' + (lifetime - 60) * 1000).
Proof.
  intros t w'. subst w'.
  unfold Spotify.exchangeToken, request, mbind, M_bind. fold t.
  assert (Hcase : forall code body token lifetime,
             Ended code body
             = Ended 200 (Parsed {| access_token := Some token; expires_in := lifetime |}) ->
             code = 200
             /\ body = Parsed {| access_token := Some token; expires_in := lifetime |}).
  { intros code body token lifetime [= -> ->]. split; reflexivity. }
  destruct (reply t) as [e| |code [|e|response]] eqn:Hreply.
  - cbn. repeat (split; [reflexivity|]). intros; discriminate.
  - cbn. repeat (split; [reflexivity|]). intros; discriminate.
  - destruct (code =? 200); cbn; repeat (split; [reflexivity|]);
      intros token lifetime Heq; apply Hcase in Heq as [_ Heq]; discriminate.
  - destruct (code =? 200); cbn; repeat (split; [reflexivity|]);
      intros token lifetime Heq; apply Hcase in Heq as [_ Heq]; discriminate.
  - destruct (Z.eqb_spec code 200) as [->|Hcode]; cbn.
    + destruct response as [[token|] lifetime]; cbn.
      * destruct (String.eqb_spec token "") as [->|Hne]; cbn;
          repeat (split; [reflexivity|]);
          intros token' lifetime' Heq Hne'; apply Hcase in Heq as [_ Heq];
          injection Heq as <- <-; [contradiction|repeat split].
      * repeat (split; [reflexivity|]).
        intros token' lifetime' Heq; apply Hcase in Heq as [_ Heq]; discriminate.
    + repeat (split; [reflexivity|]).
      intros token lifetime Heq; apply Hcase in Heq as [Heq _]; contradiction.
Qed.

Lemma log_grows (l : list Request) (r : Request) : l <> (l ++ [r])%list.
Proof.
  intros H. apply (f_equal (@List.length Request)) in H.
  rewrite length_app in H. cbn in H. lia.
Qed.

(** The exchange keeps the cache in one of its two shapes. *)
Lemma getAccessToken_cache_ok (w : World) :
  cache_ok w -> cache_ok (snd (Spotify.getAccessToken E w)).
Proof.
  intros Hok.
  assert (Hex : cache_ok (snd (Spotify.exchangeToken E w))).
  { unfold Spotify.exchangeToken, request, mbind, M_bind.
    destruct (reply _) as [e| |code [|e|[[token|] lifetime]]]; cbn;
      try exact Hok; destruct (code =? 200); cbn; try exact Hok.
    destruct (String.eqb_spec token ""); cbn; [exact Hok|].
    unfold cache_ok. cbn. assumption. }
  unfold Spotify.getAccessToken, mbind, M_bind, get_world.
  destruct (accessToken w) as [token|] eqn:Ht; [|exact Hex].
  destruct (tokenExpiry w) as [expiry|] eqn:He; [|exact Hex].
  destruct (_ && _); [|exact Hex].
  unfold cache_ok. cbn. rewrite Ht, He. unfold cache_ok in Hok. rewrite Ht, He in Hok.
  exact Hok.
Qed.

(** C7. With a token in the cache and the clock before its expiry,
    [getAccessToken] returns that token and leaves the process state, the log
    of sent requests included, as it was. It sends the client-credentials
    request exactly when the cache is empty or the clock has reached the
    expiry. After a successful exchange the stored expiry is the clock at the
    response plus the lifetime less 60 seconds, so whenever that token is later
    returned from the cache, more than 60 seconds of its lifetime remain. Both
    clients. *)
Theorem token_cache (w : World) :
  cache_ok w -> 0 <= now w ->
  (forall (token : string) (expiry : Z),
      accessToken w = Some token -> tokenExpiry w = Some expiry -> now w < expiry ->
      Spotify.getAccessToken E w = (Return token, w))
  /\ (stale w <->
      sent (snd (Spotify.getAccessToken E w)) = (sent w ++ [Spotify.tokenRequest E])%list)
  /\ (forall (token : string) (lifetime : Z),
        stale w ->
        reply (auth_server E (sent w) (Spotify.tokenRequest E))
        = Ended 200 (Parsed {| access_token := Some token; expires_in := lifetime |}) ->
        token <> "" ->
        exists w' : World,
          Spotify.getAccessToken E w = (Return token, w')
          /\ accessToken w' = Some token
          /\ tokenExpiry w' = Some (now w' + (lifetime - 60) * 1000)
          /\ forall (later : World) (token' : string),
               accessToken later = accessToken w' ->
               tokenExpiry later = tokenExpiry w' ->
               Spotify.getAccessToken E later = (Return token', later) ->
               token' = token /\ now later + 60 * 1000 < now w' + lifetime * 1000)
  /\ SpotifyAlt.getAccessToken E = Spotify.getAccessToken E.
Proof.
  intros Hok Hnow.
  assert (Hfresh : forall token expiry,
             accessToken w = Some token -> tokenExpiry w = Some expiry ->
             now w < expiry -> Spotify.getAccessToken E w = (Return token, w)).
  { intros token expiry Ht He Hlt. apply (getAccessToken_cached w token expiry);
      try assumption; [|lia].
    unfold cache_ok in Hok. rewrite Ht, He in Hok. exact Hok. }
  split; [exact Hfresh|]. split; [|split; [|reflexivity]].
  - split.
    + intros Hstale. rewrite getAccessToken_stale by assumption.
      apply exchangeToken_effect.
    + intros Hsent. unfold stale. unfold cache_ok in Hok.
      destruct (accessToken w) as [token|] eqn:Ht; [|left; reflexivity].
      destruct (tokenExpiry w) as [expiry|] eqn:He; [|contradiction].
      destruct (Z.le_gt_cases expiry (now w)) as [Hle|Hgt]; [right; eauto|].
      rewrite (Hfresh token expiry eq_refl eq_refl Hgt) in Hsent.
      cbn in Hsent. apply log_grows in Hsent. contradiction.
  - intros token lifetime Hstale Hreply Hne.
    destruct (exchangeToken_effect w) as (Hsent & Hclock & _ & Hdone).
    destruct (Hdone token lifetime Hreply Hne) as (Hret & Htok & Hexp).
    rewrite <- (getAccessToken_stale w Hstale Hok) in *.
    exists (snd (Spotify.getAccessToken E w)).
    split; [destruct (Spotify.getAccessToken E w); cbn in *; congruence|].
    split; [exact Htok|]. split; [exact Hexp|].
    intros later token' Hlt Hle Hrun. rewrite Htok in Hlt. rewrite Hexp in Hle.
    revert Hrun. unfold Spotify.getAccessToken at 1, mbind, M_bind, get_world.
    rewrite Hlt, Hle.
    assert (Hno : forall o, Spotify.exchangeToken E later = (o, later) -> False).
    { intros o Ho. destruct (exchangeToken_effect later) as (Hs & _).
      rewrite Ho in Hs. cbn in Hs. apply log_grows in Hs. exact Hs. }
    destruct (negb (String.eqb token "")); cbn [andb]; [|intros Hrun; destruct (Hno _ Hrun)].
    destruct (negb (_ =? 0)); cbn [andb]; [|intros Hrun; destruct (Hno _ Hrun)].
    destruct (Z.ltb_spec (now later) (now (snd (Spotify.getAccessToken E w))
                                       + (lifetime - 60) * 1000)) as [Hlater|_];
      [|intros Hrun; destruct (Hno _ Hrun)].
    intros [= <-]. split; [reflexivity|lia].
Qed.

(** Every call of [makeSpotifyRequest] sends something: the token request,
    the catalog request, or both. *)
Lemma makeSpotifyRequest_sends (endpoint : string) (w : World) :
  (List.length (sent w) < List.length (sent (snd (Spotify.makeSpotifyRequest E endpoint w))))%nat.
Proof.
  assert (Hex : List.length (sent (snd (Spotify.exchangeToken E w)))
                = S (List.length (sent w))).
  { destruct (exchangeToken_effect w) as [-> _]. rewrite length_app. cbn. lia. }
  assert (Htoken : match Spotify.getAccessToken E w with
                   | (Return _, w') => (List.length (sent w) <= List.length (sent w'))%nat
                   | (Throw _, w') => List.length (sent w') = S (List.length (sent w))
                   end).
  { unfold Spotify.getAccessToken, mbind, M_bind, get_world.
    destruct (accessToken w) as [token|], (tokenExpiry w) as [expiry|];
      try (destruct (Spotify.exchangeToken E w) as [[?|?] ?]; cbn in *; lia).
    destruct (_ && _); cbn; [lia|].
    destruct (Spotify.exchangeToken E w) as [[?|?] ?]; cbn in *; lia. }
  unfold Spotify.makeSpotifyRequest, mbind at 1, M_bind at 1.
  destruct (Spotify.getAccessToken E w) as [[token|e] w1]; [|cbn; lia].
  unfold request, mbind, M_bind.
  destruct (reply _) as [e| |code [|e|response]]; cbn; rewrite ?length_app; cbn; try lia.
  destruct (code =? 200); cbn; rewrite ?length_app; cbn; [lia|].
  destruct (get response "error") as [e|err]; cbn; rewrite ?length_app; cbn; lia.
Qed.

End TokenCache.

Lemma token_cache_witness :
  cache_ok Demo.warm /\ 0 <= now Demo.warm
  /\ Spotify.getAccessToken Demo.env Demo.warm = (Return "BQDtoken", Demo.warm).
Proof.
  assert (Hok : cache_ok Demo.warm) by (cbn; discriminate).
  assert (Hnow : 0 <= now Demo.warm) by (cbn; lia).
  split; [exact Hok|]. split; [exact Hnow|].
  destruct (token_cache Demo.env Demo.warm Hok Hnow) as [Hfresh _].
  apply (Hfresh "BQDtoken" 1700003540040); [reflexivity|reflexivity|cbn; lia].
Defined.

(** ** Search *)

(** The first client: a blank query is refused before anything is sent; any
    other query is trimmed, encoded and sent with [limit=20] unless a limit
    is given, and the [tracks.items] of the response come back, or the
    format error when they are missing. *)
Lemma searchTracks_checked (E : Env) (query : string) (limit : option Z) (w : World) :
  Spotify.searchTracks E query limit w
  = if String.eqb (trim query) "" then (Throw (Error "Search query cannot be empty"), w)
    else match Spotify.makeSpotifyRequest E
                 ("/v1/search?q=" ++ encodeURIComponent (trim query)
                  ++ "&type=track&limit=" ++ pretty (default 20 limit) ++ "&market=US") w with
         | (Return data, w') => (search_result data, w')
         | (Throw e, w') => (Throw e, w')
         end.
Proof.
  unfold Spotify.searchTracks.
  destruct (String.eqb_spec (trim query) "") as [Hblank|Hquery].
  - rewrite orb_true_r. reflexivity.
  - assert (Hq : query <> "") by (intros ->; apply Hquery; reflexivity).
    destruct (String.eqb_spec query ""); [contradiction|].
    cbn [orb]. unfold mbind, M_bind, search_result.
    destruct (Spotify.makeSpotifyRequest E _ w) as [[data|e] w']; [|reflexivity].
    unfold lift. destruct (get data "tracks") as [e|found]; [reflexivity|].
    cbn. destruct (truthy found); [|reflexivity]. cbn.
    destruct (get found "items") as [e|items]; [reflexivity|].
    cbn. destruct (truthy items); reflexivity.
Qed.

(** The second client sends something for every query. *)
Lemma searchTracks_unchecked_sends (E : Env) (query : string) (limit : option Z)
    (w : World) :
  (List.length (sent w)
   < List.length (sent (snd (SpotifyAlt.searchTracks E query limit w))))%nat.
Proof.
  unfold SpotifyAlt.searchTracks, SpotifyAlt.makeSpotifyRequest, mbind at 1, M_bind at 1.
  pose proof (makeSpotifyRequest_sends E
                ("/v1/search?q=" ++ encodeURIComponent query ++ "&type=track&limit="
                 ++ pretty (default 20 limit) ++ "&market=US") w) as Hsent.
  destruct (Spotify.makeSpotifyRequest E _ w) as [[data|e] w1]; [|exact Hsent].
  unfold mbind, M_bind, lift.
  destruct (get data "tracks") as [e|found]; [exact Hsent|]. cbn.
  destruct (get found "items") as [e|items]; [exact Hsent|]. cbn.
  destruct (get items "length"); exact Hsent.
Qed.

(** C6. The first client refuses a query that is blank after trimming
    before anything is sent, and for any other query sends the trimmed,
    encoded query with [limit=20] unless a limit is given and returns the
    [tracks.items] of the response, or throws the format error when they are
    missing. The second client checks nothing: for every query, the query of
    three spaces that [GET /api/search?q=%20%20%20] passes on included, it
    sends at least one request, and with a catalog that answers it returns
    the catalog's tracks. *)
Theorem search_query_check (E : Env) (query : string) (limit : option Z)
    (w : World) :
  Spotify.searchTracks E query limit w
  = (if String.eqb (trim query) "" then (Throw (Error "Search query cannot be empty"), w)
     else match Spotify.makeSpotifyRequest E
                  ("/v1/search?q=" ++ encodeURIComponent (trim query)
                   ++ "&type=track&limit=" ++ pretty (default 20 limit) ++ "&market=US") w with
          | (Return data, w') => (search_result data, w')
          | (Throw e, w') => (Throw e, w')
          end)
  /\ Spotify.searchTracks E "   " None w
     = (Throw (Error "Search query cannot be empty"), w)
  /\ (List.length (sent w)
      < List.length (sent (snd (SpotifyAlt.searchTracks E query limit w))))%nat
  /\ fst (SpotifyAlt.searchTracks Demo.env "   " None Demo.world) = Return Demo.catalog
  /\ map path (sent (snd (SpotifyAlt.searchTracks Demo.env "   " None Demo.world)))
     = ["/api/token"; "/v1/search?q=%20%20%20&type=track&limit=20&market=US"].
Proof.
  split; [apply searchTracks_checked|]. split; [reflexivity|].
  split; [apply searchTracks_unchecked_sends|]. split; reflexivity.
Qed.

(** ** Favorites *)

Lemma findById_Some (id : string) (w w' : World) (u : User) :
  findById id w = (Return (Some u), w') ->
  refusal (db w) = None
  /\ List.find (fun d => String.eqb (uid d) id) (users (db w)) = Some u
  /\ w' = w.
Proof.
  unfold findById. destruct (refusal (db w)); [discriminate|].
  intros [= H <-]. repeat split. exact H.
Qed.

(** Against a string, [===] holds for that string alone. *)
Lemma strict_equal_string (a : value) (s : string) :
  strict_equal a (VStr s) = true <-> a = VStr s.
Proof.
  destruct a; cbn; try (split; [discriminate|intros [=]]).
  rewrite String.eqb_eq. split; [intros ->; reflexivity|intros [= ->]; reflexivity].
Qed.

Lemma find_track_none (s : string) (l : list TrackRef) :
  List.find (fun track => strict_equal (trackId track) (VStr s)) l = None <->
  VStr s ∉ map trackId l.
Proof.
  induction l as [|t l IH]; cbn.
  - split; [intros _; apply not_elem_of_nil|reflexivity].
  - rewrite not_elem_of_cons.
    destruct (strict_equal (trackId t) (VStr s)) eqn:Heq.
    + apply strict_equal_string in Heq.
      split; [discriminate|intros [H _]; congruence].
    + rewrite IH. split; [intros H; split; [|exact H]|intros [_ H]; exact H].
      intros Hs. symmetry in Hs. apply strict_equal_string in Hs. congruence.
Qed.

Lemma filter_absent (s : string) (l : list TrackRef) :
  VStr s ∉ map trackId l ->
  List.filter (fun track => negb (strict_equal (trackId track) (VStr s))) l = l.
Proof.
  induction l as [|t l IH]; cbn; [reflexivity|].
  rewrite not_elem_of_cons. intros [Hne Hl].
  destruct (strict_equal (trackId t) (VStr s)) eqn:Heq.
  - apply strict_equal_string in Heq. congruence.
  - cbn. rewrite IH by exact Hl. reflexivity.
Qed.

Lemma filter_unique (f : TrackRef -> bool) (l : list TrackRef) :
  NoDup (map trackId l) -> NoDup (map trackId (List.filter f l)).
Proof.
  induction l as [|t l IH]; cbn; [intros; constructor|].
  rewrite NoDup_cons. intros [Hnotin Hl].
  destruct (f t); cbn; [|apply IH; exact Hl].
  rewrite NoDup_cons. split; [|apply IH; exact Hl].
  intros Hin. apply Hnotin. clear -Hin.
  induction l as [|t' l IH']; cbn in *; [exact Hin|].
  destruct (f t'); cbn in Hin.
  - rewrite elem_of_cons in *. destruct Hin as [->|Hin]; [left; reflexivity|right; auto].
  - rewrite elem_of_cons. right. auto.
Qed.

Lemma push_unique (l : list TrackRef) (t : TrackRef) :
  NoDup (map trackId l) -> trackId t ∉ map trackId l ->
  NoDup (map trackId (l ++ [t])).
Proof.
  intros Hl Ht. rewrite map_app. cbn. apply NoDup_app. split; [exact Hl|].
  split; [|apply NoDup_singleton].
  intros x Hx Hx'. apply list_elem_of_singleton in Hx'. subst x. contradiction.
Qed.

Lemma replaceDoc_found (u : User) (id : string) (docs : list User) :
  List.find (fun d => String.eqb (uid d) id) docs = Some u ->
  replaceDoc u docs = docs /\ u ∈ docs.
Proof.
  induction docs as [|d docs IH]; cbn; [discriminate|].
  destruct (String.eqb_spec (uid d) id) as [Hid|Hne].
  - intros [= ->]. rewrite String.eqb_refl. split; [reflexivity|left].
  - intros Hfind. destruct (IH Hfind) as [Hrep Hin].
    assert (Hu : uid u = id).
    { apply List.find_some in Hfind as [_ H]. apply String.eqb_eq in H. exact H. }
    destruct (String.eqb_spec (uid d) (uid u)); [congruence|].
    rewrite Hrep. split; [reflexivity|right; exact Hin].
Qed.

Lemma replaceDoc_unique (u : User) (docs : list User) :
  unique_tracks u -> Forall unique_tracks docs -> Forall unique_tracks (replaceDoc u docs).
Proof.
  intros Hu. induction 1 as [|d docs Hd Hdocs IH]; cbn; [constructor|].
  destruct (String.eqb (uid d) (uid u)); constructor; assumption.
Qed.

Lemma set_savedTracks_same (u : User) : set_savedTracks (savedTracks u) u = u.
Proof. destruct u; reflexivity. Qed.

Lemma set_db_same (w : World) (docs : list User) :
  refusal (db w) = None -> docs = users (db w) ->
  set_db {| users := docs; refusal := None |} w = w.
Proof.
  destruct w as [tok exp t log [docs' r]]; cbn. intros -> ->. reflexivity.
Qed.

(** The subdocument made of a body keeps a string [trackId] as it is. *)
Lemma castTrack_string (E : Env) (body : NewFavorite) (s : string) (t : Z)
    (track : TrackRef) :
  fav_trackId body = VStr s -> Server.castTrack E body t = inr track ->
  trackId track = VStr s.
Proof.
  intros Hs. unfold Server.castTrack. rewrite Hs. cbn.
  repeat match goal with
         | |- andThen ?r _ = _ -> _ => destruct r; cbn; [discriminate|]
         end.
  intros [= <-]. reflexivity.
Qed.

(** What a write of one profile does to a whole store of profiles with
    distinct [trackId]s. *)
Lemma save_keeps_unique (w : World) (u : User) :
  db_unique (db w) -> unique_tracks u -> db_unique (db (snd (save false u w))).
Proof.
  intros Hinv Hu. unfold save. destruct (refusal (db w)); [exact Hinv|].
  destruct (negb (valid u)); [exact Hinv|]. cbn.
  apply replaceDoc_unique; assumption.
Qed.

(** With a string for [trackId], neither handler ever stores a profile with a
    repeated [trackId]. *)
Lemma favorites_keep_unique (E : Env) (w : World) (userId : string) :
  db_unique (db w) ->
  (forall (body : NewFavorite) (s : string),
      fav_trackId body = VStr s ->
      db_unique (db (snd (Server.addFavorite E userId body w))))
  /\ (forall id, db_unique (db (snd (Server.removeFavorite userId id w)))).
Proof.
  intros Hinv.
  unfold Server.addFavorite, Server.removeFavorite. step.
  destruct (findById userId w) as [[[u|]|e] w'] eqn:Hfind.
  - apply findById_Some in Hfind as (Href & Hfind & ->).
    destruct (replaceDoc_found u userId _ Hfind) as [_ Hin].
    assert (Hu : unique_tracks u).
    { unfold db_unique in Hinv. rewrite Forall_forall in Hinv. apply Hinv, Hin. }
    split.
    + intros body s Hs. rewrite Hs.
      destruct (List.find _ (savedTracks u)) eqn:Hdup; [exact Hinv|].
      apply find_track_none in Hdup. unfold Date_now, lift.
      destruct (Server.castTrack E body (now w)) as [e|track] eqn:Hcast; [exact Hinv|].
      pose proof (castTrack_string E body s _ _ Hs Hcast) as Hid.
      unfold mret, M_ret.
      match goal with
      | |- context [save false ?u' w] =>
          pose proof (save_keeps_unique w u' Hinv) as Hsave;
            destruct (save false u' w) as [[[]|e] w'']
      end; cbn in *; apply Hsave; apply push_unique; try assumption;
        rewrite Hid; exact Hdup.
    + intros id.
      match goal with
      | |- context [save false ?u' w] =>
          pose proof (save_keeps_unique w u' Hinv) as Hsave;
            destruct (save false u' w) as [[[]|e] w'']
      end; cbn in *; apply Hsave; apply filter_unique; exact Hu.
  - unfold findById in Hfind. destruct (refusal (db w)); [discriminate|].
    injection Hfind as _ <-. split; intros; exact Hinv.
  - unfold findById in Hfind. destruct (refusal (db w)); [|discriminate].
    injection Hfind as _ <-. split; intros; exact Hinv.
Qed.

(** Writing a profile back puts it where the profile it was read from
    was, and only there. *)
Lemma find_replaceDoc (u u' : User) (id : string) (docs : list User) :
  List.find (fun d => String.eqb (uid d) id) docs = Some u -> uid u' = id ->
  List.find (fun d => String.eqb (uid d) id) (replaceDoc u' docs) = Some u'
  /\ replaceDoc u (replaceDoc u' docs) = docs
  /\ map uid (replaceDoc u' docs) = map uid docs
  /\ (email u' = email u -> map email (replaceDoc u' docs) = map email docs).
Proof.
  intros Hfind <-. induction docs as [|d docs IH]; cbn in *; [discriminate|].
  destruct (String.eqb_spec (uid d) (uid u')) as [Hd|Hd].
  - injection Hfind as ->. cbn. rewrite !String.eqb_refl, Hd, String.eqb_refl.
    repeat split. intros ->. reflexivity.
  - destruct (IH Hfind) as (H1 & H2 & H3 & H4). cbn.
    assert (Hu : uid u = uid u').
    { apply List.find_some in Hfind as [_ H]. apply String.eqb_eq in H. exact H. }
    destruct (String.eqb_spec (uid d) (uid u')); [contradiction|].
    destruct (String.eqb_spec (uid d) (uid u)); [congruence|].
    rewrite H1, H2, H3. repeat split. intros He. rewrite (H4 He). reflexivity.
Qed.

(** The profile found under an identifier after a profile read under that
    identifier was written back, or was not. *)
Lemma found_after_save (w : World) (userId : string) (u u' u1 : User) :
  findById userId w = (Return (Some u), w) -> uid u' = uid u ->
  fst (findById userId (snd (save false u' w))) = Return (Some u1) ->
  u1 = u \/ u1 = u'.
Proof.
  intros Hfind Hid.
  pose proof (findById_Some _ _ _ _ Hfind) as (Href & Hdoc & _).
  assert (Hu : uid u = userId).
  { apply List.find_some in Hdoc as [_ H]. apply String.eqb_eq in H. exact H. }
  unfold save. rewrite Href.
  destruct (negb (valid u')); cbn [snd].
  - rewrite Hfind. intros [= ->]. left. reflexivity.
  - unfold findById. cbn.
    destruct (find_replaceDoc u u' userId _ Hdoc (eq_trans Hid Hu)) as [-> _].
    intros [= ->]. right. reflexivity.
Qed.

(** With a string for [trackId], a profile whose saved tracks have distinct
    [trackId]s is after either handler a profile of that kind. *)
Lemma favorites_keep_profile_unique (E : Env) (w : World) (userId : string) (u : User) :
  findById userId w = (Return (Some u), w) ->
  unique_tracks u ->
  (forall (body : NewFavorite) (s : string) (u1 : User),
      fav_trackId body = VStr s ->
      fst (findById userId (snd (Server.addFavorite E userId body w))) = Return (Some u1) ->
      unique_tracks u1)
  /\ (forall (id : string) (u1 : User),
        fst (findById userId (snd (Server.removeFavorite userId id w))) = Return (Some u1) ->
        unique_tracks u1).
Proof.
  intros Hfind Hu.
  assert (Hsame : forall u1, fst (findById userId w) = Return (Some u1) -> unique_tracks u1).
  { rewrite Hfind. intros u1 [= <-]. exact Hu. }
  assert (Hsaved : forall u' u1, uid u' = uid u -> unique_tracks u' ->
            fst (findById userId (snd (save false u' w))) = Return (Some u1) ->
            unique_tracks u1).
  { intros u' u1 Hid Hu' Hrun.
    destruct (found_after_save w userId u u' u1 Hfind Hid Hrun) as [-> | ->]; assumption. }
  split.
  - intros body s u1 Hs. unfold Server.addFavorite. step. rewrite Hfind, Hs.
    destruct (List.find _ (savedTracks u)) eqn:Hdup; [apply Hsame|].
    apply find_track_none in Hdup. unfold Date_now, lift.
    destruct (Server.castTrack E body (now w)) as [e|track] eqn:Hcast; [apply Hsame|].
    pose proof (castTrack_string E body s _ _ Hs Hcast) as Hid.
    unfold mret, M_ret.
    match goal with
    | |- context [save false ?u' w] =>
        pose proof (Hsaved u' u1 eq_refl) as Hrun;
          destruct (save false u' w) as [[[]|e'] w'']
    end; cbn in *; apply Hrun; apply push_unique; try assumption; rewrite Hid; exact Hdup.
  - intros id u1. unfold Server.removeFavorite. step. rewrite Hfind.
    match goal with
    | |- context [save false ?u' w] =>
        pose proof (Hsaved u' u1 eq_refl) as Hrun;
          destruct (save false u' w) as [[[]|e'] w'']
    end; cbn in *; apply Hrun; apply filter_unique; exact Hu.
Qed.

(** C8. For a stored profile and a [trackId] that is a string: adding a
    favorite whose [trackId] is among the saved tracks answers 400 and
    changes nothing; removing a [trackId] that is not among them answers 200
    with the saved tracks as they were and changes nothing; a profile whose
    saved tracks have distinct [trackId]s has them distinct after either
    handler, and so has a whole store of such profiles. Both servers. The body's [trackId] may be
    any JSON value, though, and the duplicate test compares it as it came
    with the stored strings: the body [five], whose [trackId] is the number
    5, is accepted twice by the profile of [Demo.world], which then holds
    the [trackId] "5" twice. *)
Theorem favorites_duplicate_and_absent (E : Env) (w : World) (userId : string) (u : User) :
  findById userId w = (Return (Some u), w) ->
  valid u = true ->
  (forall (body : NewFavorite) (s : string),
      fav_trackId body = VStr s ->
      VStr s ∈ map trackId (savedTracks u) ->
      Server.addFavorite E userId body w
      = (Return {| status := 400;
                   json := ErrorJson "Track already in favorites" None None |}, w))
  /\ (forall id : string,
        VStr id ∉ map trackId (savedTracks u) ->
        Server.removeFavorite userId id w
        = (Return {| status := 200;
                     json := FavoritesJson (Some "Track removed from favorites")
                               (savedTracks u) |}, w))
  /\ (unique_tracks u ->
      (forall (body : NewFavorite) (s : string) (u1 : User),
          fav_trackId body = VStr s ->
          fst (findById userId (snd (Server.addFavorite E userId body w)))
          = Return (Some u1) ->
          unique_tracks u1)
      /\ (forall (id : string) (u1 : User),
            fst (findById userId (snd (Server.removeFavorite userId id w)))
            = Return (Some u1) ->
            unique_tracks u1))
  /\ (forall (w0 : World) (anyId : string),
        db_unique (db w0) ->
        (forall (body : NewFavorite) (s : string),
            fav_trackId body = VStr s ->
            db_unique (db (snd (Server.addFavorite E anyId body w0))))
        /\ (forall id, db_unique (db (snd (Server.removeFavorite anyId id w0)))))
  /\ ServerAlt.addFavorite E = Server.addFavorite E
  /\ ServerAlt.removeFavorite = Server.removeFavorite
  /\ (let track5 :=
        {| trackId := VStr "5"; trackName := VStr "Five"; artist := VStr "B";
           album := VStr "EP"; imageUrl := VUndef; previewUrl := VNull;
           savedAt := now Demo.world |} in
      let w1 := snd (Server.addFavorite Demo.env "user0" five Demo.world) in
      let w2 := snd (Server.addFavorite Demo.env "user0" five w1) in
      db_unique (db Demo.world)
      /\ fst (Server.addFavorite Demo.env "user0" five Demo.world)
         = Return {| status := 200;
                     json := FavoritesJson (Some "Track added to favorites")
                               [Demo.saved; track5] |}
      /\ fst (Server.addFavorite Demo.env "user0" five w1)
         = Return {| status := 200;
                     json := FavoritesJson (Some "Track added to favorites")
                               [Demo.saved; track5; track5] |}
      /\ map (fun d => map trackId (savedTracks d)) (users (db w2))
         = [[VStr "t1"; VStr "5"; VStr "5"]]
      /\ ~ db_unique (db w2)).
Proof.
  intros Hfind Hvalid.
  pose proof (findById_Some _ _ _ _ Hfind) as (Href & Hdoc & _).
  split; [|split; [|split; [|split; [|split; [reflexivity|split; [reflexivity|]]]]]].
  - intros body s Hs Hin.
    unfold Server.addFavorite. step. rewrite Hfind, Hs.
    destruct (List.find _ (savedTracks u)) eqn:Hdup; [reflexivity|].
    apply find_track_none in Hdup. contradiction.
  - intros id Hout.
    unfold Server.removeFavorite. step. rewrite Hfind.
    rewrite (filter_absent id _ Hout), set_savedTracks_same.
    unfold save. rewrite Href, Hvalid. cbn.
    destruct (replaceDoc_found u userId _ Hdoc) as [-> _].
    rewrite set_db_same by (assumption || reflexivity). reflexivity.
  - intros Hu. apply (favorites_keep_profile_unique E w userId u); assumption.
  - intros w0 anyId. apply favorites_keep_unique.
  - cbv zeta. split; [|split; [reflexivity|split; [reflexivity|split; [reflexivity|]]]].
    + repeat constructor; cbn; apply not_elem_of_nil.
    + intros Hall. apply Forall_inv in Hall. unfold unique_tracks in Hall.
      vm_compute in Hall.
      apply NoDup_cons in Hall as [_ Hall]. apply NoDup_cons in Hall as [Hnot _].
      apply Hnot. left.
Qed.

Lemma favorites_witness :
  findById "user0" Demo.world = (Return (Some Demo.alice), Demo.world)
  /\ valid Demo.alice = true
  /\ Server.addFavorite Demo.env "user0" again Demo.world
     = (Return {| status := 400;
                  json := ErrorJson "Track already in favorites" None None |}, Demo.world)
  /\ Server.removeFavorite "user0" "t9" Demo.world
     = (Return {| status := 200;
                  json := FavoritesJson (Some "Track removed from favorites") [Demo.saved] |},
        Demo.world).
Proof.
  split; [reflexivity|]. split; [reflexivity|].
  destruct (favorites_duplicate_and_absent Demo.env Demo.world "user0" Demo.alice
              eq_refl eq_refl) as (Hadd & Hremove & _).
  split.
  - apply (Hadd again "t1"); [reflexivity|]. cbn. left.
  - apply (Hremove "t9"). cbn. rewrite not_elem_of_cons. split; [discriminate|].
    apply not_elem_of_nil.
Defined.

(** ** A request whose profile cannot be loaded *)

Lemma getRecommendations_truthy (E : Env) (seeds : gmap string value) (w w' : World)
    (recs : value) :
  Spotify.getRecommendations E seeds w = (Return recs, w') -> truthy recs = true.
Proof.
  unfold Spotify.getRecommendations, mbind, M_bind.
  destruct (Spotify.makeSpotifyRequest E _ w) as [[data|e] w1]; [|discriminate].
  unfold lift. destruct (get data "tracks") as [e|found]; [discriminate|]. cbn.
  destruct (truthy found) eqn:Ht; cbn; [|discriminate].
  intros [= <- _]. exact Ht.
Qed.

Lemma get_truthy (v : value) (k : string) :
  truthy v = true -> exists x : value, get v k = inr x.
Proof. destruct v; cbn; try discriminate; eauto. Qed.

Lemma profileOf_missing (q : RecommendationQuery) (w : World) (id : string) :
  user_id q = Some id ->
  fst (findById id w) = Return None \/ (exists e, fst (findById id w) = Throw e) ->
  profileOf q w = None.
Proof.
  intros Hid Hmiss. unfold profileOf. rewrite Hid.
  destruct (String.eqb id ""); [reflexivity|].
  destruct (findById id w) as [[[u|]|e] w']; cbn in Hmiss; try reflexivity.
  destruct Hmiss as [H|[e H]]; discriminate.
Qed.

(** C9. For a request whose query parameters are strings: when its
    [user_id] matches no stored profile, or the lookup throws, both handlers
    answer as they answer the same request without [user_id]. The seed is
    the one built by the seed, mood, override and default steps, and that
    seed is what the catalog is asked with. The handler of [src/server.js]
    answers 200 with the catalog's recommendations for that seed when the
    catalog call returns, and 500 with the error's message when it throws;
    the handler of [src/unnamed/part_001] answers 200 with the catalog's
    recommendations for that seed when the call returns, and 200 with the
    mock selection when it throws. *)
Theorem missing_profile_is_skipped (E : Env) (q : RecommendationQuery) (w : World)
    (id : string) :
  user_id q = Some id ->
  fst (findById id w) = Return None \/ (exists e, fst (findById id w) = Throw e) ->
  Server.buildSeeds q w = (Return (Server.defaultGenres (requestSeeds q)), w)
  /\ ServerAlt.buildSeeds q w = (Return (ServerAlt.defaultGenres (requestSeeds q)), w)
  /\ Server.recommendations E q w = Server.recommendations E (anonymous q) w
  /\ ServerAlt.recommendations E q w = ServerAlt.recommendations E (anonymous q) w
  /\ (forall (recs : value) (w' : World),
        Spotify.getRecommendations E (Server.defaultGenres (requestSeeds q)) w
        = (Return recs, w') ->
        exists count : value,
          get recs "length" = inr count
          /\ Server.recommendations E q w
             = (Return {| status := 200;
                          json := RecommendationsJson recs
                                    (Server.defaultGenres (requestSeeds q)) count |}, w'))
  /\ (forall (e : exn) (w' : World),
        Spotify.getRecommendations E (Server.defaultGenres (requestSeeds q)) w
        = (Throw e, w') ->
        Server.recommendations E q w
        = (Return {| status := 500;
                     json := ErrorJson "Failed to get recommendations from Spotify"
                               (Some (message_of e))
                               (Some "Check your Spotify API credentials and connection") |},
           w'))
  /\ (forall (recs : value) (w' : World),
        SpotifyAlt.getRecommendations E (ServerAlt.defaultGenres (requestSeeds q)) w
        = (Return recs, w') ->
        ServerAlt.recommendations E q w
        = (Return {| status := 200;
                     json := FallbackJson recs
                               (ServerAlt.defaultGenres (requestSeeds q)) false |}, w'))
  /\ (forall (e : exn) (w' : World),
        SpotifyAlt.getRecommendations E (ServerAlt.defaultGenres (requestSeeds q)) w
        = (Throw e, w') ->
        ServerAlt.recommendations E q w
        = (Return {| status := 200;
                     json := FallbackJson (mockSelection E (mood q) (energy_level q))
                               (ServerAlt.defaultGenres (requestSeeds q)) true |}, w')).
Proof.
  intros Hid Hmiss.
  pose proof (profileOf_missing q w id Hid Hmiss) as Hnone.
  destruct (buildSeeds_steps q w) as [HA HB]. rewrite Hnone in HA, HB.
  destruct (buildSeeds_steps (anonymous q) w) as [HA' HB'].
  change (profileOf (anonymous q) w) with (@None User) in HA', HB'.
  change (requestSeeds (anonymous q)) with (requestSeeds q) in HA', HB'.
  change (Server.applyProfile None (requestSeeds q)) with (requestSeeds q) in *.
  split; [exact HA|]. split; [exact HB|].
  split; [|split; [|split; [|split; [|split]]]].
  - unfold Server.recommendations. step. rewrite HA, HA'. reflexivity.
  - unfold ServerAlt.recommendations. step. rewrite HB, HB'. reflexivity.
  - intros recs w' Hrecs.
    destruct (get_truthy recs "length" (getRecommendations_truthy _ _ _ _ _ Hrecs))
      as [count Hcount].
    exists count. split; [exact Hcount|]. unfold Server.recommendations. step.
    rewrite HA, Hrecs. unfold lift. rewrite Hcount. reflexivity.
  - intros e w' Hrecs. unfold Server.recommendations. step.
    rewrite HA, Hrecs. reflexivity.
  - intros recs w' Hrecs. unfold ServerAlt.recommendations. step.
    rewrite HB, Hrecs. reflexivity.
  - intros e w' Hrecs. unfold ServerAlt.recommendations. step.
    rewrite HB, Hrecs. reflexivity.
Qed.

Lemma missing_profile_witness :
  user_id stranger = Some "nobody"
  /\ (fst (findById "nobody" Demo.world) = Return None
      \/ (exists e, fst (findById "nobody" Demo.world) = Throw e))
  /\ Server.recommendations Demo.env stranger Demo.world
     = Server.recommendations Demo.env (anonymous stranger) Demo.world
  /\ fst (ServerAlt.recommendations Demo.env stranger Demo.world)
     = Return {| status := 200;
                 json := FallbackJson Demo.catalog
                           (ServerAlt.defaultGenres (requestSeeds stranger)) false |}.
Proof.
  split; [reflexivity|]. split; [left; reflexivity|].
  destruct (missing_profile_is_skipped Demo.env stranger Demo.world "nobody" eq_refl
              (or_introl eq_refl)) as (_ & _ & Hsame & _ & _ & _ & Hcatalog & _).
  split; [exact Hsame|].
  rewrite (Hcatalog Demo.catalog
             (snd (SpotifyAlt.getRecommendations Demo.env
                     (ServerAlt.defaultGenres (requestSeeds stranger)) Demo.world)));
    reflexivity.
Defined.

(** ** Creating a user twice *)

Lemma findOne_Some (mail : string) (w w' : World) (o : option User) :
  findOne mail w = (Return o, w') ->
  refusal (db w) = None
  /\ List.find (fun d => String.eqb (email d) mail) (users (db w)) = o
  /\ w' = w.
Proof.
  unfold findOne. destruct (refusal (db w)); [discriminate|].
  intros [= H <-]. repeat split. exact H.
Qed.

Lemma find_app_none {A : Type} (f : A -> bool) (l : list A) (x : A) :
  List.find f l = None -> f x = true -> List.find f (l ++ [x]) = Some x.
Proof.
  induction l as [|y l IH]; cbn; intros Hl Hx; [rewrite Hx; reflexivity|].
  destruct (f y); [discriminate|]. apply IH; assumption.
Qed.

(** C10. [POST /api/users] with an email that is already stored answers 200
    with the stored profile and leaves the process state, the store included,
    as it was, whatever name and genres the body carries; and after a
    creation (201) every further request with that email answers 200 with
    the profile that was created, again without a write. Both servers. *)
Theorem create_user_is_idempotent (E : Env) (w : World) (body : NewUser) (u : User) :
  findOne (new_email body) w = (Return (Some u), w) ->
  Server.createUser E body w = (Return {| status := 200; json := UserJson u |}, w)
  /\ (forall body' : NewUser,
        new_email body' = new_email body ->
        Server.createUser E body' w = (Return {| status := 200; json := UserJson u |}, w))
  /\ (forall (w0 w1 : World) (body0 body1 : NewUser) (r : Response),
        Server.createUser E body0 w0 = (Return r, w1) ->
        status r = 201 ->
        new_email body1 = new_email body0 ->
        Server.createUser E body1 w1 = (Return {| status := 200; json := json r |}, w1))
  /\ ServerAlt.createUser E = Server.createUser E.
Proof.
  intros Hfound.
  assert (Hget : forall body', new_email body' = new_email body ->
                 Server.createUser E body' w
                 = (Return {| status := 200; json := UserJson u |}, w)).
  { intros body' Hmail. unfold Server.createUser. step.
    rewrite Hmail, Hfound. reflexivity. }
  split; [apply Hget; reflexivity|]. split; [exact Hget|]. split; [|reflexivity].
  intros w0 w1 body0 body1 r Hrun H201 Hmail.
  unfold Server.createUser, try_catch, mbind, M_bind in Hrun.
  destruct (findOne (new_email body0) w0) as [[[existing|]|e] w0'] eqn:Hone.
  - injection Hrun as <- _. discriminate.
  - apply findOne_Some in Hone as (Href & Hnone & ->).
    unfold get_world, save in Hrun. rewrite Href in Hrun.
    destruct (negb (valid _)); [injection Hrun as <- _; discriminate|].
    cbn [negb] in Hrun.
    destruct (existsb _ _); [injection Hrun as <- _; discriminate|].
    cbn in Hrun. injection Hrun as <- <-.
    unfold Server.createUser, try_catch, mbind, M_bind, findOne. cbn.
    rewrite Hmail.
    rewrite (find_app_none _ _ _ Hnone) by (cbn; apply String.eqb_refl).
    reflexivity.
  - injection Hrun as <- _. discriminate.
Qed.

Lemma create_user_witness :
  findOne "alice@example.org" Demo.world = (Return (Some Demo.alice), Demo.world)
  /\ Server.createUser Demo.env
       {| new_name := "Someone else"; new_email := "alice@example.org";
          new_favoriteGenres := Some ["metal"] |} Demo.world
     = (Return {| status := 200; json := UserJson Demo.alice |}, Demo.world).
Proof.
  split; [reflexivity|].
  destruct (create_user_is_idempotent Demo.env Demo.world
              {| new_name := "Someone else"; new_email := "alice@example.org";
                 new_favoriteGenres := Some ["metal"] |} Demo.alice eq_refl)
    as [Hsame _].
  exact Hsame.
Defined.
(** ** Lookups by identifier *)

Lemma sends_strictly (E : Env) (endpoint : string) (k : value -> M value) (w : World) :
  (forall v w1, (List.length (sent w1) <= List.length (sent (snd (k v w1))))%nat) ->
  (List.length (sent w)
   < List.length (sent (snd ((Spotify.makeSpotifyRequest E endpoint ≫= k) w))))%nat.
Proof.
  intros Hk. pose proof (makeSpotifyRequest_sends E endpoint w) as Hs.
  unfold mbind, M_bind.
  destruct (Spotify.makeSpotifyRequest E endpoint w) as [[v|e] w1]; cbn in *; [|exact Hs].
  specialize (Hk v w1). lia.
Qed.

Lemma lift_keeps_log {A : Type} (r : exn + A) (w : World) :
  snd (lift r w) = w.
Proof. destruct r; reflexivity. Qed.

(** X1. [getTrackFeatures] and [getTracks] given no identifiers at all
    ([undefined], [null], the empty string or the empty array) return the
    empty array and leave the process state as it was: no token is fetched
    and nothing is sent. For any argument on which the test
    [!trackIds || trackIds.length === 0] is false, a one-element array for
    instance, they send at least one request. Both clients. *)
Theorem lookups_without_ids_send_nothing (E : Env) (w : World) :
  (forall ids : value,
      ids ∈ [VUndef; VNull; VStr ""; VArr []] ->
      Spotify.getTrackFeatures E ids w = (Return (VArr []), w)
      /\ Spotify.getTracks E ids w = (Return (VArr []), w)
      /\ SpotifyAltLookups.getTrackFeatures E ids w = (Return (VArr []), w)
      /\ SpotifyAltLookups.getTracks E ids w = (Return (VArr []), w))
  /\ (forall ids : value,
        Spotify.no_ids ids = false ->
        (List.length (sent w)
         < List.length (sent (snd (Spotify.getTrackFeatures E ids w))))%nat
        /\ (List.length (sent w)
            < List.length (sent (snd (Spotify.getTracks E ids w))))%nat
        /\ (List.length (sent w)
            < List.length (sent (snd (SpotifyAltLookups.getTrackFeatures E ids w))))%nat
        /\ (List.length (sent w)
            < List.length (sent (snd (SpotifyAltLookups.getTracks E ids w))))%nat)
  /\ (forall id : value, Spotify.no_ids (VArr [id]) = false).
Proof.
  split; [|split; [|reflexivity]].
  - intros ids Hin. rewrite !elem_of_cons, elem_of_nil in Hin.
    destruct Hin as [->|[->|[->|[->|[]]]]]; repeat split; reflexivity.
  - intros ids Hids.
    unfold SpotifyAltLookups.getTrackFeatures, SpotifyAltLookups.getTracks,
      Spotify.getTrackFeatures, Spotify.getTracks.
    rewrite Hids.
    repeat split; apply sends_strictly; intros v w1; rewrite lift_keeps_log; lia.
Qed.

(** ** One catalog request *)

Section CatalogRequest.
Context (E : Env).

Lemma request_effect {A : Type} (server : list Request -> Request -> Timed A)
    (r : Request) (w : World) :
  request server r w
  = (Return (reply (server (sent w) r)),
     {| accessToken := accessToken w; tokenExpiry := tokenExpiry w;
        now := now w + elapsed (server (sent w) r);
        sent := (sent w ++ [r])%list; db := db w |}).
Proof. reflexivity. Qed.

(** What [makeSpotifyRequest] does once it holds a token: one request, and
    a value only for a 200 response with a JSON body. *)
Lemma makeSpotifyRequest_with_token (endpoint token : string) (w w1 : World) :
  Spotify.getAccessToken E w = (Return token, w1) ->
  let t := api_server E (sent w1) (catalogRequest token endpoint) in
  let w' := snd (Spotify.makeSpotifyRequest E endpoint w) in
  let r := fst (Spotify.makeSpotifyRequest E endpoint w) in
  sent w' = (sent w1 ++ [catalogRequest token endpoint])%list
  /\ now w' = now w1 + elapsed t
  /\ accessToken w' = accessToken w1
  /\ tokenExpiry w' = tokenExpiry w1
  /\ db w' = db w1
  /\ (forall data : value, r = Return data <-> reply t = Ended 200 (Parsed data))
  /\ (forall code : Z, reply t = Ended code Blank ->
        r = Throw (Error "Empty response from Spotify API"))
  /\ (reply t = TimedOut -> r = Throw (Error "Request timeout"))
  /\ (forall e : exn, reply t = Failed e -> r = Throw e).
Proof.
  intros Htoken t w' r. subst w' r.
  unfold Spotify.makeSpotifyRequest, mbind, M_bind. rewrite Htoken, request_effect.
  change {| hostname := "api.spotify.com"; port := 443; path := endpoint; method := "GET";
            headers := [("Authorization", "Bearer " ++ token);
                        ("Content-Type", "application/json");
                        ("Accept", "application/json")];
            written := "" |} with (catalogRequest token endpoint).
  fold t.
  destruct (reply t) as [e| |code [|e|response]] eqn:Hreply; cbn.
  - repeat (split; [reflexivity|]).
    split; [intros data; split; discriminate|].
    split; [discriminate|]. split; [discriminate|]. intros e' [= ->]. reflexivity.
  - repeat (split; [reflexivity|]).
    split; [intros data; split; discriminate|].
    split; [discriminate|]. split; [reflexivity|discriminate].
  - repeat (split; [reflexivity|]).
    split; [intros data; split; discriminate|].
    split; [reflexivity|]. split; discriminate.
  - repeat (split; [reflexivity|]).
    split; [intros data; split; discriminate|].
    split; [discriminate|]. split; discriminate.
  - destruct (Z.eqb_spec code 200) as [->|Hcode]; cbn.
    + repeat (split; [reflexivity|]).
      split; [intros data; split; intros [= ->]; reflexivity|].
      split; [discriminate|]. split; discriminate.
    + destruct (get response "error") as [e|err]; cbn;
        repeat (split; [reflexivity|]);
        (split; [intros data; split; [discriminate|intros [= Hc _]; contradiction]|]);
        (split; [discriminate|]); split; discriminate.
Qed.

(** X2. With a token in the cache and the clock before its expiry,
    [makeSpotifyRequest] sends exactly one request: [GET endpoint] to
    [api.spotify.com] with the header [Authorization: Bearer <token>]. The
    cache and the store stay as they were and the clock moves by the time
    the reply takes. The call returns a value exactly when the reply is a
    200 response with a JSON body, and then that body; an empty body gives
    [Empty response from Spotify API] whatever the status, the socket
    timeout [Request timeout], a network error that error. *)
Theorem cached_token_sends_one_request (endpoint token : string) (expiry : Z) (w : World) :
  accessToken w = Some token -> token <> "" ->
  tokenExpiry w = Some expiry -> expiry <> 0 -> now w < expiry ->
  let t := api_server E (sent w) (catalogRequest token endpoint) in
  let w' := snd (Spotify.makeSpotifyRequest E endpoint w) in
  let r := fst (Spotify.makeSpotifyRequest E endpoint w) in
  sent w' = (sent w ++ [catalogRequest token endpoint])%list
  /\ now w' = now w + elapsed t
  /\ accessToken w' = accessToken w
  /\ tokenExpiry w' = tokenExpiry w
  /\ db w' = db w
  /\ (forall data : value, r = Return data <-> reply t = Ended 200 (Parsed data))
  /\ (forall code : Z, reply t = Ended code Blank ->
        r = Throw (Error "Empty response from Spotify API"))
  /\ (reply t = TimedOut -> r = Throw (Error "Request timeout"))
  /\ (forall e : exn, reply t = Failed e -> r = Throw e).
Proof.
  intros Ht Hne He Hz Hlt.
  apply makeSpotifyRequest_with_token.
  apply (getAccessToken_cached E w token expiry); assumption.
Qed.

End CatalogRequest.

Lemma cached_token_witness :
  sent (snd (Spotify.makeSpotifyRequest Demo.env "/v1/tracks/t1?market=US" Demo.warm))
  = [catalogRequest "BQDtoken" "/v1/tracks/t1?market=US"].
Proof.
  destruct (cached_token_sends_one_request Demo.env "/v1/tracks/t1?market=US" "BQDtoken"
              1700003540040 Demo.warm) as (Hsent & _).
  - reflexivity.
  - discriminate.
  - reflexivity.
  - discriminate.
  - cbn. lia.
  - exact Hsent.
Defined.

(** ** A token that cannot be had *)

Section TokenFailure.
Context (E : Env).

Lemma getAccessToken_throws (w : World) (e : exn) :
  fst (Spotify.getAccessToken E w) = Throw e ->
  Spotify.getAccessToken E w = Spotify.exchangeToken E w.
Proof.
  unfold Spotify.getAccessToken, mbind, M_bind, get_world.
  destruct (accessToken w) as [token|]; [|reflexivity].
  destruct (tokenExpiry w) as [expiry|]; [|reflexivity].
  destruct (_ && _); [discriminate|reflexivity].
Qed.

Lemma exchangeToken_throws (w : World) (e : exn) :
  fst (Spotify.exchangeToken E w) = Throw e ->
  accessToken (snd (Spotify.exchangeToken E w)) = accessToken w
  /\ tokenExpiry (snd (Spotify.exchangeToken E w)) = tokenExpiry w
  /\ forall code body,
       reply (auth_server E (sent w) (Spotify.tokenRequest E)) = Ended code body ->
       code <> 200 -> e = Error ("Token request failed: " ++ pretty code).
Proof.
  unfold Spotify.exchangeToken, request, mbind, M_bind.
  destruct (reply _) as [e'| |code [|e'|[[token|] lifetime]]]; cbn.
  - intros _. repeat split. discriminate.
  - intros _. repeat split. discriminate.
  - destruct (Z.eqb_spec code 200) as [->|Hcode]; cbn; intros [= <-]; repeat split;
      intros code' body [= <- _] Hne; [contradiction|reflexivity].
  - destruct (Z.eqb_spec code 200) as [->|Hcode]; cbn; intros [= <-]; repeat split;
      intros code' body [= <- _] Hne; [contradiction|reflexivity].
  - destruct (Z.eqb_spec code 200) as [->|Hcode]; cbn.
    + destruct (String.eqb token ""); cbn; [|discriminate].
      intros _. repeat split. intros code' body [= <- _] Hne. contradiction.
    + intros [= <-]. repeat split. intros code' body [= <- _] Hne. reflexivity.
  - destruct (Z.eqb_spec code 200) as [->|Hcode]; cbn; intros [= <-]; repeat split;
      intros code' body [= <- _] Hne; [contradiction|reflexivity].
Qed.

(** X3. When [getAccessToken] throws, [makeSpotifyRequest] throws the same
    error and the catalog is never contacted: the only request sent is the
    client-credentials request, and the token cache and the store stay as
    they were. A status other than 200 from the token endpoint makes that
    error [Token request failed: <status>]. The search route of
    [src/server.js] then answers 500 with the error's message, while the
    recommendations route of [src/unnamed/part_001] answers 200 with mock
    data. *)
Theorem token_failure_stops_the_call (endpoint : string) (w : World) (e : exn) :
  fst (Spotify.getAccessToken E w) = Throw e ->
  let w' := snd (Spotify.getAccessToken E w) in
  Spotify.makeSpotifyRequest E endpoint w = (Throw e, w')
  /\ sent w' = (sent w ++ [Spotify.tokenRequest E])%list
  /\ accessToken w' = accessToken w
  /\ tokenExpiry w' = tokenExpiry w
  /\ db w' = db w
  /\ (forall (code : Z) (body : Payload TokenResponse),
        reply (auth_server E (sent w) (Spotify.tokenRequest E)) = Ended code body ->
        code <> 200 -> e = Error ("Token request failed: " ++ pretty code))
  /\ (forall q : string,
        trim q <> "" ->
        Server.search E (Some q) w
        = (Return {| status := 500;
                     json := ErrorJson "Failed to search tracks from Spotify"
                               (Some (message_of e))
                               (Some "Check your Spotify API credentials and connection") |},
           w'))
  /\ (forall q : RecommendationQuery,
        exists seeds : gmap string value,
          ServerAlt.recommendations E q w
          = (Return {| status := 200;
                       json := FallbackJson (mockSelection E (mood q) (energy_level q))
                                 seeds true |}, w')).
Proof.
  intros Hthrow w'. subst w'.
  pose proof (getAccessToken_throws w e Hthrow) as Hex.
  destruct (exchangeToken_effect E w) as (Hsent & _ & Hdb & _).
  assert (Hthrow' : fst (Spotify.exchangeToken E w) = Throw e) by (rewrite <- Hex; exact Hthrow).
  destruct (exchangeToken_throws w e Hthrow') as (Htok & Hexp & Hcode).
  rewrite Hex.
  assert (Hrun : forall endpoint', Spotify.makeSpotifyRequest E endpoint' w
                 = (Throw e, snd (Spotify.exchangeToken E w))).
  { intros endpoint'. unfold Spotify.makeSpotifyRequest, mbind at 1, M_bind at 1.
    rewrite Hex. destruct (Spotify.exchangeToken E w) as [o w1]. cbn in *.
    rewrite Hthrow'. reflexivity. }
  split; [apply Hrun|]. split; [exact Hsent|]. split; [exact Htok|]. split; [exact Hexp|].
  split; [exact Hdb|]. split; [exact Hcode|]. split.
  - intros q Hq.
    assert (Hne : q <> "") by (intros ->; apply Hq; reflexivity).
    unfold Server.search, try_catch.
    destruct (String.eqb_spec q ""); [contradiction|].
    unfold mbind at 1, M_bind at 1. unfold Spotify.searchTracks.
    destruct (String.eqb_spec q ""); [contradiction|].
    destruct (String.eqb_spec (trim q) ""); [contradiction|].
    cbn [orb]. unfold mbind at 1, M_bind at 1. rewrite Hrun. reflexivity.
  - intros q. destruct (buildSeeds_steps q w) as [_ HB].
    eexists. unfold ServerAlt.recommendations, try_catch.
    unfold mbind at 1, M_bind at 1. rewrite HB.
    unfold SpotifyAlt.getRecommendations.
    unfold mbind at 1, M_bind at 1.
    unfold mbind at 1, M_bind at 1.
    unfold SpotifyAlt.makeSpotifyRequest. rewrite Hrun. reflexivity.
Qed.

End TokenFailure.

Lemma token_failure_witness :
  fst (Spotify.getAccessToken Cases.offline Demo.world)
  = Throw (Error "Token request failed: 401")
  /\ status (match Server.search Cases.offline (Some "queen") Demo.world with
             | (Return r, _) => r
             | (Throw _, _) => {| status := 0; json := ErrorJson "" None None |}
             end) = 500.
Proof.
  split; [reflexivity|].
  destruct (token_failure_stops_the_call Cases.offline "" Demo.world
              (Error "Token request failed: 401") eq_refl)
    as (_ & _ & _ & _ & _ & _ & Hsearch & _).
  rewrite (Hsearch "queen") by discriminate. reflexivity.
Defined.

(** ** A seed list on its way to the catalog *)






(** ** Favorites, added and removed *)

Lemma save_written (u' : User) (w : World) :
  refusal (db w) = None -> valid u' = true ->
  save false u' w
  = (Return tt, set_db {| users := replaceDoc u' (users (db w)); refusal := None |} w).
Proof. intros Href Hvalid. unfold save. rewrite Href, Hvalid. reflexivity. Qed.

Lemma findById_found (id : string) (w : World) (u : User) :
  refusal (db w) = None ->
  List.find (fun d => String.eqb (uid d) id) (users (db w)) = Some u ->
  findById id w = (Return (Some u), w).
Proof. intros Href Hfind. unfold findById. rewrite Href, Hfind. reflexivity. Qed.

(** X5. For a stored profile and a body whose [trackId] is a string that is
    not among the profile's saved tracks and whose fields the schema
    accepts: adding the track answers 200 with the saved tracks followed by
    the new one, which carries that [trackId] and the clock's time; the
    list route then shows that list; adding the same body again answers
    400; and removing the [trackId] answers 200 with the saved tracks as
    they were before, the whole process state being again what it was
    before the track was added. *)
Theorem favorite_added_then_removed (E : Env) (w : World) (userId : string) (u : User)
    (body : NewFavorite) (s : string) (track : TrackRef) :
  findById userId w = (Return (Some u), w) ->
  valid u = true ->
  fav_trackId body = VStr s ->
  VStr s ∉ map trackId (savedTracks u) ->
  Server.castTrack E body (now w) = inr track ->
  trackId track = VStr s
  /\ savedAt track = now w
  /\ exists w1 : World,
      Server.addFavorite E userId body w
      = (Return {| status := 200;
                   json := FavoritesJson (Some "Track added to favorites")
                             (savedTracks u ++ [track]) |}, w1)
      /\ Server.getFavorites userId w1
         = (Return {| status := 200;
                      json := FavoritesJson None (savedTracks u ++ [track]) |}, w1)
      /\ Server.addFavorite E userId body w1
         = (Return {| status := 400;
                      json := ErrorJson "Track already in favorites" None None |}, w1)
      /\ Server.removeFavorite userId s w1
         = (Return {| status := 200;
                      json := FavoritesJson (Some "Track removed from favorites")
                                (savedTracks u) |}, w).
Proof.
  intros Hfind Hvalid Hs Hnew Hcast.
  pose proof (findById_Some _ _ _ _ Hfind) as (Href & Hdoc & _).
  pose proof (castTrack_string E body s _ _ Hs Hcast) as Hid.
  assert (Hat : savedAt track = now w).
  { revert Hcast. unfold Server.castTrack.
    repeat match goal with
           | |- andThen ?r _ = _ -> _ => destruct r; cbn; [discriminate|]
           end.
    intros [= <-]. reflexivity. }
  assert (Hu : uid u = userId).
  { apply List.find_some in Hdoc as [_ H]. apply String.eqb_eq in H. exact H. }
  set (u1 := set_savedTracks (savedTracks u ++ [track]) u).
  set (w1 := set_db {| users := replaceDoc u1 (users (db w)); refusal := None |} w).
  destruct (find_replaceDoc u u1 userId _ Hdoc Hu) as (Hfind1 & Hback & _).
  assert (Hfind1' : findById userId w1 = (Return (Some u1), w1)).
  { apply findById_found; [reflexivity|exact Hfind1]. }
  split; [exact Hid|]. split; [exact Hat|].
  exists w1. split; [|split; [|split]].
  - unfold Server.addFavorite. step. rewrite Hfind, Hs.
    apply find_track_none in Hnew. rewrite Hnew.
    unfold Date_now. rewrite Hcast. cbn [lift]. unfold mret at 1, M_ret at 1.
    fold u1. rewrite (save_written u1 w Href Hvalid). reflexivity.
  - unfold Server.getFavorites. step. rewrite Hfind1'. reflexivity.
  - unfold Server.addFavorite. step. rewrite Hfind1', Hs.
    destruct (List.find _ (savedTracks u1)) eqn:Hdup; [reflexivity|].
    apply find_track_none in Hdup. exfalso. apply Hdup.
    subst u1. cbn. rewrite map_app, elem_of_app. right. cbn. rewrite Hid. left.
  - unfold Server.removeFavorite. step. rewrite Hfind1'.
    assert (Hfilter : List.filter (fun t => negb (strict_equal (trackId t) (VStr s)))
                        (savedTracks u1) = savedTracks u).
    { subst u1. cbn [savedTracks set_savedTracks]. rewrite List.filter_app.
      rewrite (filter_absent _ _ Hnew). cbn. rewrite Hid. cbn.
      rewrite String.eqb_refl. cbn. apply app_nil_r. }
    rewrite Hfilter.
    assert (Hsame : set_savedTracks (savedTracks u) u1 = u).
    { subst u1. destruct u; reflexivity. }
    rewrite Hsame. rewrite (save_written u w1 eq_refl Hvalid).
    subst w1. cbn. rewrite Hback.
    destruct w as [tok exp t log [docs r]]; cbn in *. subst r. reflexivity.
Qed.

Lemma favorite_round_trip_witness :
  Server.removeFavorite "user0" "t2"
    (snd (Server.addFavorite Demo.env "user0" Cases.second Demo.world))
  = (Return {| status := 200;
               json := FavoritesJson (Some "Track removed from favorites") [Demo.saved] |},
     Demo.world).
Proof.
  destruct (favorite_added_then_removed Demo.env Demo.world "user0" Demo.alice
              Cases.second "t2"
              {| trackId := VStr "t2"; trackName := VStr "Two"; artist := VStr "B";
                 album := VStr "EP"; imageUrl := VStr "j"; previewUrl := VStr "q";
                 savedAt := now Demo.world |})
    as (_ & _ & w1 & Hadd & _ & _ & Hremove).
  - reflexivity.
  - reflexivity.
  - reflexivity.
  - cbn. rewrite not_elem_of_cons. split; [discriminate|apply not_elem_of_nil].
  - reflexivity.
  - rewrite Hadd. exact Hremove.
Defined.

Lemma filter_sublist_of (f : TrackRef -> bool) (l : list TrackRef) :
  sublist (List.filter f l) l.
Proof.
  induction l as [|t l IH]; cbn; [constructor|].
  destruct (f t); [apply sublist_skip|apply sublist_cons]; exact IH.
Qed.

Lemma filter_removes (id : string) (l : list TrackRef) :
  VStr id ∉ map trackId
              (List.filter (fun t => negb (strict_equal (trackId t) (VStr id))) l).
Proof.
  induction l as [|t l IH]; cbn; [apply not_elem_of_nil|].
  destruct (strict_equal (trackId t) (VStr id)) eqn:Heq; cbn; [exact IH|].
  rewrite not_elem_of_cons. split; [|exact IH].
  intros Hid. symmetry in Hid. apply strict_equal_string in Hid. congruence.
Qed.

(** X6. For a stored profile, removing a track identifier answers 200 with
    the saved tracks that have another identifier, in their stored order:
    no track with that identifier is left, however many there were, and no
    other track is dropped. The list route then shows that list, and
    removing the same identifier once more answers the same and changes
    nothing. *)
Theorem removed_favorite_is_gone (w : World) (userId id : string) (u : User) :
  findById userId w = (Return (Some u), w) ->
  valid u = true ->
  exists (w1 : World) (kept : list TrackRef),
    Server.removeFavorite userId id w
    = (Return {| status := 200;
                 json := FavoritesJson (Some "Track removed from favorites") kept |}, w1)
    /\ (VStr id ∉ map trackId kept)
    /\ (forall t : TrackRef, (t ∈ kept) <-> (t ∈ savedTracks u /\ trackId t <> VStr id))
    /\ sublist kept (savedTracks u)
    /\ Server.getFavorites userId w1
       = (Return {| status := 200; json := FavoritesJson None kept |}, w1)
    /\ Server.removeFavorite userId id w1
       = (Return {| status := 200;
                    json := FavoritesJson (Some "Track removed from favorites") kept |}, w1).
Proof.
  intros Hfind Hvalid.
  pose proof (findById_Some _ _ _ _ Hfind) as (Href & Hdoc & _).
  assert (Hu : uid u = userId).
  { apply List.find_some in Hdoc as [_ H]. apply String.eqb_eq in H. exact H. }
  set (kept := List.filter (fun t => negb (strict_equal (trackId t) (VStr id)))
                (savedTracks u)).
  set (u1 := set_savedTracks kept u).
  set (w1 := set_db {| users := replaceDoc u1 (users (db w)); refusal := None |} w).
  destruct (find_replaceDoc u u1 userId _ Hdoc Hu) as (Hfind1 & _).
  assert (Hfind1' : findById userId w1 = (Return (Some u1), w1)).
  { apply findById_found; [reflexivity|exact Hfind1]. }
  assert (Hgone : VStr id ∉ map trackId kept) by apply filter_removes.
  exists w1, kept. split; [|split; [exact Hgone|split; [|split; [|split]]]].
  - unfold Server.removeFavorite. step. rewrite Hfind. fold kept. fold u1.
    rewrite (save_written u1 w Href Hvalid). reflexivity.
  - intros t. subst kept. rewrite !list_elem_of_In, List.filter_In.
    destruct (strict_equal (trackId t) (VStr id)) eqn:Heq; cbn.
    + apply strict_equal_string in Heq. intuition congruence.
    + assert (trackId t <> VStr id).
      { intros Hid. apply strict_equal_string in Hid. congruence. }
      intuition congruence.
  - apply filter_sublist_of.
  - unfold Server.getFavorites. step. rewrite Hfind1'. reflexivity.
  - unfold Server.removeFavorite. step. rewrite Hfind1'.
    change (savedTracks u1) with kept.
    rewrite (filter_absent id kept Hgone).
    assert (Hsame : set_savedTracks kept u1 = u1) by reflexivity.
    rewrite Hsame, (save_written u1 w1 eq_refl Hvalid).
    destruct (replaceDoc_found u1 userId _ Hfind1) as [Hback _].
    subst w1. cbn. rewrite Hback. reflexivity.
Qed.

Lemma removed_favorite_witness :
  exists (w1 : World) (kept : list TrackRef),
    Server.removeFavorite "user0" "t1" Demo.world
    = (Return {| status := 200;
                 json := FavoritesJson (Some "Track removed from favorites") kept |}, w1)
    /\ VStr "t1" ∉ map trackId kept.
Proof.
  destruct (removed_favorite_is_gone Demo.world "user0" "t1" Demo.alice eq_refl eq_refl)
    as (w1 & kept & Hrun & Hgone & _).
  exists w1, kept. split; [exact Hrun|exact Hgone].
Defined.

(** ** Lookups that miss, reads that do not write *)

Lemma findById_outcome (id : string) (w : World) :
  snd (findById id w) = w.
Proof. unfold findById. destruct (refusal (db w)); reflexivity. Qed.


Lemma keeps_ret {A : Type} (a : A) : keeps_store (mret a : M A).
Proof. intros w. reflexivity. Qed.

Lemma keeps_throw {A : Type} (e : exn) : keeps_store (throw e : M A).
Proof. intros w. reflexivity. Qed.

Lemma keeps_bind {A B : Type} (m : M A) (k : A -> M B) :
  keeps_store m -> (forall a, keeps_store (k a)) -> keeps_store (m ≫= k).
Proof.
  intros Hm Hk w. unfold mbind, M_bind. specialize (Hm w).
  destruct (m w) as [[a|e] w1]; cbn in *; [rewrite Hk|]; exact Hm.
Qed.

Lemma keeps_try {A : Type} (body : M A) (handler : exn -> M A) :
  keeps_store body -> (forall e, keeps_store (handler e)) ->
  keeps_store (try_catch body handler).
Proof.
  intros Hm Hk w. unfold try_catch. specialize (Hm w).
  destruct (body w) as [[a|e] w1]; cbn in *; [|rewrite Hk]; exact Hm.
Qed.

Lemma keeps_lift {A : Type} (r : exn + A) : keeps_store (lift r).
Proof. destruct r; intros w; reflexivity. Qed.

Lemma keeps_findById (id : string) : keeps_store (findById id).
Proof. intros w. rewrite findById_outcome. reflexivity. Qed.

Lemma keeps_getAccessToken (E : Env) : keeps_store (Spotify.getAccessToken E).
Proof.
  intros w. unfold Spotify.getAccessToken, mbind, M_bind, get_world.
  pose proof (exchangeToken_effect E w) as (_ & _ & Hdb & _).
  destruct (accessToken w); [|exact Hdb].
  destruct (tokenExpiry w); [|exact Hdb].
  destruct (_ && _); [reflexivity|exact Hdb].
Qed.

Lemma keeps_makeSpotifyRequest (E : Env) (endpoint : string) :
  keeps_store (Spotify.makeSpotifyRequest E endpoint).
Proof.
  unfold Spotify.makeSpotifyRequest.
  apply keeps_bind; [apply keeps_getAccessToken|]. intros token.
  apply keeps_bind; [intros w; reflexivity|]. intros r.
  destruct r as [e| |code [|e|response]];
    try apply keeps_throw.
  destruct (code =? 200); [apply keeps_ret|].
  destruct (get response "error"); apply keeps_throw.
Qed.

Ltac keeps :=
  repeat match goal with
         | |- keeps_store (try_catch _ _) => apply keeps_try; [|intros ?]
         | |- keeps_store (mbind _ _) => apply keeps_bind; [|intros ?]
         | |- keeps_store (mret _) => apply keeps_ret
         | |- keeps_store (throw _) => apply keeps_throw
         | |- keeps_store (lift _) => apply keeps_lift
         | |- keeps_store (findById _) => apply keeps_findById
         | |- keeps_store (Spotify.makeSpotifyRequest _ _) => apply keeps_makeSpotifyRequest
         | |- keeps_store (let _ := _ in _) => cbv zeta
         | |- keeps_store (if ?b then _ else _) => destruct b
         | |- keeps_store (match ?x with _ => _ end) => destruct x
         end.

Lemma keeps_getRecommendations (E : Env) (seeds : gmap string value) :
  keeps_store (Spotify.getRecommendations E seeds).
Proof. unfold Spotify.getRecommendations. keeps. Qed.

Lemma keeps_getRecommendations_alt (E : Env) (seeds : gmap string value) :
  keeps_store (SpotifyAlt.getRecommendations E seeds).
Proof.
  unfold SpotifyAlt.getRecommendations, SpotifyAlt.makeSpotifyRequest. keeps.
Qed.

Lemma keeps_searchTracks (E : Env) (query : string) (limit : option Z) :
  keeps_store (Spotify.searchTracks E query limit).
Proof. unfold Spotify.searchTracks. keeps. Qed.

Lemma keeps_buildSeeds (q : RecommendationQuery) :
  keeps_store (Server.buildSeeds q).
Proof. intros w. destruct (buildSeeds_steps q w) as [-> _]. reflexivity. Qed.

Lemma keeps_buildSeeds_alt (q : RecommendationQuery) :
  keeps_store (ServerAlt.buildSeeds q).
Proof. intros w. destruct (buildSeeds_steps q w) as [_ ->]. reflexivity. Qed.

(** X8. The routes that only read never write: the profile route and the
    list of favorites leave the whole process state as it was, whatever
    they answer; search, recommendations and trending may fetch a token
    and send requests, but the store is after them what it was before, in
    the recommendations route of [src/unnamed/part_001] as well. *)
Theorem reading_routes_never_write (E : Env) (w : World) :
  (forall userId : string,
      snd (Server.getUser userId w) = w /\ snd (Server.getFavorites userId w) = w)
  /\ (forall q : option string, db (snd (Server.search E q w)) = db w)
  /\ (forall q : RecommendationQuery,
        db (snd (Server.recommendations E q w)) = db w
        /\ db (snd (ServerAlt.recommendations E q w)) = db w)
  /\ db (snd (Server.trending E w)) = db w.
Proof.
  split; [|split; [|split]].
  - intros userId. unfold Server.getUser, Server.getFavorites. step.
    pose proof (findById_outcome userId w) as Hw.
    destruct (findById userId w) as [[[u|]|e] w1]; cbn in *; subst w1; split; reflexivity.
  - intros q. revert w. change (keeps_store (Server.search E q)).
    unfold Server.search.
    apply keeps_try; [|intros ?; keeps].
    destruct q as [q'|]; [|keeps].
    destruct (String.eqb q' ""); [keeps|].
    apply keeps_bind; [apply keeps_searchTracks|intros ?; keeps].
  - intros q.
    split; revert w;
      [change (keeps_store (Server.recommendations E q))
      |change (keeps_store (ServerAlt.recommendations E q))];
      unfold Server.recommendations, ServerAlt.recommendations.
    + apply keeps_try; [|intros ?; keeps].
      apply keeps_bind; [apply keeps_buildSeeds|]. intros seeds.
      apply keeps_bind; [apply keeps_getRecommendations|]. intros recs. keeps.
    + apply keeps_try; [|intros ?; keeps].
      apply keeps_bind; [apply keeps_buildSeeds_alt|]. intros seeds.
      apply keeps_try; [|intros ?; keeps].
      apply keeps_bind; [apply keeps_getRecommendations_alt|]. intros recs. keeps.
  - revert w. change (keeps_store (Server.trending E)). unfold Server.trending.
    apply keeps_try; [|intros ?; keeps].
    apply keeps_bind; [apply keeps_getRecommendations|]. intros recs. keeps.
Qed.

(** ** A profile, created and fetched *)

Lemma find_fresh {A : Type} (f g : A -> bool) (l : list A) :
  existsb (fun d => f d || g d) l = false ->
  List.find f l = None /\ List.find g l = None.
Proof.
  induction l as [|d l IH]; cbn; [split; reflexivity|].
  destruct (f d), (g d); cbn; try discriminate. exact IH.
Qed.

(** X9. When [POST /api/users] answers 201, the body's name and email are
    non-empty, the profile in the answer carries them, the body's genres or
    else [pop] and [rock], no saved track, the preferences 0.5, 0.5 and 0.5
    and the clock's time; it is the last profile of the store, whose other
    profiles are as they were; and the profile route and the list of
    favorites, asked with the new identifier, answer 200 with that profile
    and with the empty list. *)
Theorem created_user_can_be_fetched (E : Env) (w w1 : World) (body : NewUser)
    (r : Response) :
  Server.createUser E body w = (Return r, w1) ->
  status r = 201 ->
  exists u : User,
    json r = UserJson u
    /\ name u = new_name body /\ name u <> ""
    /\ email u = new_email body /\ email u <> ""
    /\ favoriteGenres u = default ["pop"; "rock"] (new_favoriteGenres body)
    /\ savedTracks u = []
    /\ preferences u = Some {| energy := 0.5; danceability := 0.5; valence := 0.5 |}
    /\ createdAt u = now w
    /\ users (db w1) = (users (db w) ++ [u])%list
    /\ Server.getUser (uid u) w1 = (Return {| status := 200; json := UserJson u |}, w1)
    /\ Server.getFavorites (uid u) w1
       = (Return {| status := 200; json := FavoritesJson None [] |}, w1).
Proof.
  intros Hrun H201.
  unfold Server.createUser, try_catch, mbind, M_bind in Hrun.
  destruct (findOne (new_email body) w) as [[[existing|]|e] w0] eqn:Hone;
    [injection Hrun as <- _; discriminate| |injection Hrun as <- _; discriminate].
  apply findOne_Some in Hone as (Href & Hnone & ->).
  unfold get_world, save in Hrun. rewrite Href in Hrun.
  destruct (valid _) eqn:Hvalid; cbn [negb] in Hrun;
    [|injection Hrun as <- _; discriminate].
  destruct (existsb _ _) eqn:Hfresh; [injection Hrun as <- _; discriminate|].
  cbn in Hrun. injection Hrun as <- <-.
  apply find_fresh in Hfresh as [Hid _].
  unfold valid in Hvalid. cbn in Hvalid. apply andb_prop in Hvalid as [Hn He].
  eexists. split; [reflexivity|]. cbn.
  split; [reflexivity|]. split; [destruct (String.eqb_spec (new_name body) ""); [discriminate|assumption]|].
  split; [reflexivity|]. split; [destruct (String.eqb_spec (new_email body) ""); [discriminate|assumption]|].
  repeat (split; [reflexivity|]).
  unfold Server.getUser, Server.getFavorites, try_catch, mbind, M_bind, findById. cbn.
  rewrite (find_app_none _ _ _ Hid) by (cbn; apply String.eqb_refl).
  split; reflexivity.
Qed.

Lemma created_user_witness :
  exists u : User,
    fst (Server.createUser Demo.env Cases.bob Demo.world)
    = Return {| status := 201; json := UserJson u |}
    /\ uid u = "user1" /\ favoriteGenres u = ["pop"; "rock"].
Proof.
  destruct (created_user_can_be_fetched Demo.env Demo.world
              (snd (Server.createUser Demo.env Cases.bob Demo.world)) Cases.bob
              {| status := 201;
                 json := UserJson
                   {| uid := "user1"; name := "Bob"; email := "bob@example.org";
                      favoriteGenres := ["pop"; "rock"]; savedTracks := []; playlists := [];
                      preferences := Some {| energy := 0.5; danceability := 0.5;
                                             valence := 0.5 |};
                      createdAt := now Demo.world |} |} eq_refl eq_refl)
    as (u & Hjson & _ & _ & _ & _ & Hgenres & _).
  exists u. cbn in Hjson. injection Hjson as <-.
  split; [reflexivity|]. split; reflexivity.
Defined.

(** ** What the writing routes keep *)

Lemma assign_outcome (x : option float) (set : float -> Preferences -> Preferences)
    (p : option Preferences) (w : World) :
  Profiles.assign x set p w
  = (match x, p with
     | None, _ => Return p
     | Some v, Some p' => Return (Some (set (Profiles.clamp v) p'))
     | Some _, None => Throw (TypeError "Cannot set properties of undefined")
     end, w).
Proof. destruct x, p; reflexivity. Qed.

Section WritingRoutes.
(** A property of the store that writing a profile back keeps, when the
    profile written has the identifier and the email of the one read. *)
Variable P : Db -> Prop.
Variable userId : string.
Hypothesis save_keeps : forall (w : World) (u u' : User),
  findById userId w = (Return (Some u), w) ->
  uid u' = uid u -> email u' = email u ->
  P (db w) -> P (db (snd (save false u' w))).

Lemma writing_routes_keep (E : Env) (w : World) :
  P (db w) ->
  (forall body, P (db (snd (Server.addFavorite E userId body w))))
  /\ (forall id, P (db (snd (Server.removeFavorite userId id w))))
  /\ (forall body, P (db (snd (Profiles.updatePreferences userId body w)))).
Proof.
  intros HP.
  unfold Server.addFavorite, Server.removeFavorite, Profiles.updatePreferences. step.
  pose proof (findById_outcome userId w) as Hw.
  destruct (findById userId w) as [[[u|]|e] w0] eqn:Hfind; cbn in Hw; subst w0;
    [|repeat split; intros; exact HP..].
  assert (Hsave : forall u', uid u' = uid u -> email u' = email u ->
                  P (db (snd (save false u' w)))).
  { intros u' Hid Hmail. apply (save_keeps w u u'); assumption. }
  split; [|split].
  - intros body. destruct (List.find _ (savedTracks u)); [exact HP|].
    unfold Date_now, lift.
    destruct (Server.castTrack E body (now w)) as [e|track]; [exact HP|].
    unfold mret, M_ret.
    match goal with
    | |- context [save false ?u' w] =>
        specialize (Hsave u' eq_refl eq_refl); destruct (save false u' w) as [[[]|e] w1]
    end; exact Hsave.
  - intros id.
    match goal with
    | |- context [save false ?u' w] =>
        specialize (Hsave u' eq_refl eq_refl); destruct (save false u' w) as [[[]|e] w1]
    end; exact Hsave.
  - intros body. rewrite assign_outcome.
    destruct (upd_energy body) as [x|], (preferences u) as [p|]; try exact HP;
      rewrite assign_outcome;
      destruct (upd_danceability body) as [y|]; try exact HP;
      rewrite assign_outcome;
      destruct (upd_valence body) as [z|]; try exact HP;
      match goal with
      | |- context [save false ?u' w] =>
          specialize (Hsave u' eq_refl eq_refl); destruct (save false u' w) as [[[]|e] w1]
      end; exact Hsave.
Qed.

End WritingRoutes.

Lemma not_in_fresh (id mail : string) (docs : list User) :
  existsb (fun d => String.eqb (uid d) id || String.eqb (email d) mail) docs = false ->
  (id ∉ map uid docs) /\ (mail ∉ map email docs).
Proof.
  induction docs as [|d docs IH]; cbn; [intros _; split; apply not_elem_of_nil|].
  destruct (String.eqb_spec (uid d) id), (String.eqb_spec (email d) mail); cbn;
    try discriminate.
  intros H. destruct (IH H) as [H1 H2]. rewrite !not_elem_of_cons.
  split; (split; [congruence|assumption]).
Qed.

Lemma NoDup_push {A : Type} (l : list A) (x : A) :
  NoDup l -> x ∉ l -> NoDup (l ++ [x]).
Proof.
  intros Hl Hx. apply NoDup_app. split; [exact Hl|]. split; [|apply NoDup_singleton].
  intros y Hy Hy'. apply list_elem_of_singleton in Hy'. subst y. contradiction.
Qed.

Lemma save_keeps_keys (w : World) (userId : string) (u u' : User) :
  findById userId w = (Return (Some u), w) ->
  uid u' = uid u -> email u' = email u ->
  keys_unique (db w) -> keys_unique (db (snd (save false u' w))).
Proof.
  intros Hfind Hid Hmail Hkeys.
  pose proof (findById_Some _ _ _ _ Hfind) as (Href & Hdoc & _).
  assert (Hu : uid u = userId).
  { apply List.find_some in Hdoc as [_ H]. apply String.eqb_eq in H. exact H. }
  unfold save. rewrite Href. destruct (negb (valid u')); [exact Hkeys|].
  destruct (find_replaceDoc u u' userId _ Hdoc (eq_trans Hid Hu)) as (_ & _ & H1 & H2).
  unfold keys_unique. cbn. rewrite H1, (H2 Hmail). exact Hkeys.
Qed.

(** X10. Identifiers and emails stay keys of the store: when no two stored
    profiles share an identifier and no two share an email, that is so
    again after [POST /api/users], after adding or removing a favorite and
    after an update of the preferences, whatever the request carries and
    whatever the route answers. *)
Theorem store_keys_stay_unique (E : Env) (w : World) :
  keys_unique (db w) ->
  (forall body : NewUser, keys_unique (db (snd (Server.createUser E body w))))
  /\ (forall (userId : string) (body : NewFavorite),
        keys_unique (db (snd (Server.addFavorite E userId body w))))
  /\ (forall userId id : string,
        keys_unique (db (snd (Server.removeFavorite userId id w))))
  /\ (forall (userId : string) (body : PreferencesUpdate),
        keys_unique (db (snd (Profiles.updatePreferences userId body w)))).
Proof.
  intros Hkeys. split.
  - intros body. unfold Server.createUser, try_catch, mbind, M_bind.
    destruct (findOne (new_email body) w) as [[[existing|]|e] w0] eqn:Hone.
    + apply findOne_Some in Hone as (_ & _ & ->). exact Hkeys.
    + apply findOne_Some in Hone as (Href & _ & ->).
      unfold get_world, save. rewrite Href.
      destruct (negb (valid _)); [exact Hkeys|].
      destruct (existsb _ _) eqn:Hfresh; [exact Hkeys|].
      apply not_in_fresh in Hfresh as [Hid Hmail]. cbn in Hid, Hmail.
      destruct Hkeys as [H1 H2]. unfold keys_unique. cbn. rewrite !map_app. cbn.
      split; apply NoDup_push; assumption.
    + unfold findOne in Hone. destruct (refusal (db w)); [|discriminate].
      injection Hone as _ <-. exact Hkeys.
  - split; [|split]; intros userId;
      destruct (writing_routes_keep keys_unique userId
                  (fun w0 => save_keeps_keys w0 userId) E w Hkeys)
        as (Hadd & Hremove & Hupdate); [apply Hadd|apply Hremove|apply Hupdate].
Qed.

Lemma store_keys_witness :
  keys_unique (db Demo.world)
  /\ keys_unique (db (snd (Server.createUser Demo.env Cases.bob Demo.world))).
Proof.
  assert (Hkeys : keys_unique (db Demo.world)).
  { split; cbn; (apply NoDup_cons; split; [apply not_elem_of_nil|apply NoDup_nil_2]). }
  split; [exact Hkeys|].
  destruct (store_keys_stay_unique Demo.env Demo.world Hkeys) as [Hcreate _].
  apply Hcreate.
Defined.

Lemma find_replaceDoc_other (u' : User) (other : string) (docs : list User) :
  uid u' <> other ->
  List.find (fun d => String.eqb (uid d) other) (replaceDoc u' docs)
  = List.find (fun d => String.eqb (uid d) other) docs.
Proof.
  intros Hne. induction docs as [|d docs IH]; cbn; [reflexivity|].
  destruct (String.eqb_spec (uid d) (uid u')) as [Hd|Hd]; cbn.
  - destruct (String.eqb_spec (uid u') other); [contradiction|].
    destruct (String.eqb_spec (uid d) other); [congruence|]. reflexivity.
  - rewrite IH. reflexivity.
Qed.

Lemma save_keeps_others (other : string) (r0 : option exn) (found : option User)
    (w : World) (userId : string) (u u' : User) :
  other <> userId ->
  findById userId w = (Return (Some u), w) ->
  uid u' = uid u -> email u' = email u ->
  (refusal (db w) = r0
   /\ List.find (fun d => String.eqb (uid d) other) (users (db w)) = found) ->
  refusal (db (snd (save false u' w))) = r0
  /\ List.find (fun d => String.eqb (uid d) other) (users (db (snd (save false u' w))))
     = found.
Proof.
  intros Hother Hfind Hid Hmail [Href Hfound].
  pose proof (findById_Some _ _ _ _ Hfind) as (Hnone & Hdoc & _).
  assert (Hu : uid u = userId).
  { apply List.find_some in Hdoc as [_ H]. apply String.eqb_eq in H. exact H. }
  unfold save. rewrite Hnone. destruct (negb (valid u')); [split; assumption|].
  cbn. split; [congruence|].
  rewrite find_replaceDoc_other; [exact Hfound|congruence].
Qed.

(** X11. Adding a favorite, removing one and updating the preferences
    write one profile only: after each of them, whatever it was given and
    whatever it answered, every other identifier finds what it found
    before. *)
Theorem writes_touch_one_profile (E : Env) (w : World) (userId other : string) :
  other <> userId ->
  (forall body : NewFavorite,
      fst (findById other (snd (Server.addFavorite E userId body w)))
      = fst (findById other w))
  /\ (forall id : string,
        fst (findById other (snd (Server.removeFavorite userId id w)))
        = fst (findById other w))
  /\ (forall body : PreferencesUpdate,
        fst (findById other (snd (Profiles.updatePreferences userId body w)))
        = fst (findById other w)).
Proof.
  intros Hother.
  set (P := fun d : Db =>
              refusal d = refusal (db w)
              /\ List.find (fun x => String.eqb (uid x) other) (users d)
                 = List.find (fun x => String.eqb (uid x) other) (users (db w))).
  assert (Hfound : forall w', P (db w') -> fst (findById other w') = fst (findById other w)).
  { intros w' [Href Hfind]. unfold findById. rewrite Href, Hfind.
    destruct (refusal (db w)); reflexivity. }
  destruct (writing_routes_keep P userId
              (fun w0 u u' => save_keeps_others other _ _ w0 userId u u' Hother) E w)
    as (Hadd & Hremove & Hupdate); [split; reflexivity|].
  repeat split; intros; apply Hfound; auto.
Qed.

Lemma writes_touch_one_profile_witness :
  fst (findById "user0"
         (snd (Server.addFavorite Demo.env "user1" Cases.second
                 (snd (Server.createUser Demo.env Cases.bob Demo.world)))))
  = Return (Some Demo.alice).
Proof.
  destruct (writes_touch_one_profile Demo.env
              (snd (Server.createUser Demo.env Cases.bob Demo.world)) "user1" "user0")
    as (Hadd & _); [discriminate|].
  rewrite Hadd. reflexivity.
Defined.

(** ** Preferences between 0 and 1 *)

(** [Math.max(0, Math.min(1, x))] for a number that is not [NaN], case by
    case. *)
Lemma clamp_cases (x : float) :
  PrimFloat.is_nan x = false ->
  Profiles.clamp x
  = if PrimFloat.leb x 1
    then if PrimFloat.leb 0 x then (if PrimFloat.leb x 0 then 0%float else x) else 0%float
    else 1%float.
Proof.
  intros Hnan. unfold Profiles.clamp, MathJs.min.
  replace (PrimFloat.is_nan 1) with false by reflexivity. rewrite Hnan. cbn [orb].
  destruct (PrimFloat.leb x 1) eqn:H1; [|reflexivity].
  replace (MathJs.is_neg_zero 1) with false by reflexivity.
  replace (if PrimFloat.leb 1 x then x else x) with x by (destruct (PrimFloat.leb 1 x); reflexivity).
  unfold MathJs.max. replace (PrimFloat.is_nan 0) with false by reflexivity.
  rewrite Hnan. cbn [orb].
  replace (MathJs.is_pos_zero 0) with true by reflexivity.
  destruct (PrimFloat.leb 0 x), (PrimFloat.leb x 0); reflexivity.
Qed.

Lemma clamp_in_unit (x : float) :
  PrimFloat.is_nan x = false -> in_unit (Profiles.clamp x) = true.
Proof.
  intros Hnan. rewrite (clamp_cases x Hnan). unfold in_unit.
  destruct (PrimFloat.leb x 1) eqn:H1; [|reflexivity].
  destruct (PrimFloat.leb 0 x) eqn:H0; [|reflexivity].
  destruct (PrimFloat.leb x 0) eqn:H2; [reflexivity|].
  rewrite H0, H1. reflexivity.
Qed.

(** X12. For a stored profile with preferences and a body whose numbers
    are not [NaN], [PUT /api/users/:userId/preferences] answers with the
    updated preferences and genres and stores them, so that the profile
    route then shows them. A field the body gives becomes
    [Math.max(0, Math.min(1, x))], which lies between 0 and 1: it is [x]
    itself when [x] is above 0 and at most 1, 1 when [x] is above 1, and 0
    when [x] is at most 0 or below; a field the body leaves out keeps its
    stored value, and so do the genres. A profile whose preferences were
    between 0 and 1 has them there afterwards. *)
Theorem preferences_are_clamped (w : World) (userId : string) (u : User)
    (p : Preferences) (body : PreferencesUpdate) :
  findById userId w = (Return (Some u), w) ->
  valid u = true ->
  preferences u = Some p ->
  (forall x : float,
      upd_energy body = Some x \/ upd_danceability body = Some x
      \/ upd_valence body = Some x ->
      PrimFloat.is_nan x = false) ->
  let updated (given : option float) (old new : float) : Prop :=
    match given with
    | Some x =>
        new = Profiles.clamp x
        /\ in_unit new = true
        /\ (PrimFloat.leb x 1 = true -> PrimFloat.leb 0 x = true ->
            PrimFloat.leb x 0 = false -> new = x)
        /\ (PrimFloat.leb x 1 = false -> new = 1%float)
        /\ (PrimFloat.leb x 1 = true -> PrimFloat.leb 0 x = false -> new = 0%float)
        /\ (PrimFloat.leb x 1 = true -> PrimFloat.leb x 0 = true -> new = 0%float)
    | None => new = old
    end in
  exists (p' : Preferences) (w1 : World),
    let genres := default (favoriteGenres u) (upd_favoriteGenres body) in
    Profiles.updatePreferences userId body w
    = (Return (PreferencesUpdated (Some p') genres), w1)
    /\ Server.getUser userId w1
       = (Return {| status := 200;
                    json := UserJson (Profiles.set_profile (Some p') genres u) |}, w1)
    /\ updated (upd_energy body) (energy p) (energy p')
    /\ updated (upd_danceability body) (danceability p) (danceability p')
    /\ updated (upd_valence body) (valence p) (valence p')
    /\ (prefs_in_unit u -> prefs_in_unit (Profiles.set_profile (Some p') genres u)).
Proof.
  intros Hfind Hvalid Hp Hnan updated.
  pose proof (findById_Some _ _ _ _ Hfind) as (Href & Hdoc & _).
  assert (Hu : uid u = userId).
  { apply List.find_some in Hdoc as [_ H]. apply String.eqb_eq in H. exact H. }
  set (new (given : option float) (old : float) :=
         match given with Some x => Profiles.clamp x | None => old end).
  set (p' := {| energy := new (upd_energy body) (energy p);
                danceability := new (upd_danceability body) (danceability p);
                valence := new (upd_valence body) (valence p) |}).
  set (genres := default (favoriteGenres u) (upd_favoriteGenres body)).
  set (u1 := Profiles.set_profile (Some p') genres u).
  set (w1 := set_db {| users := replaceDoc u1 (users (db w)); refusal := None |} w).
  assert (Hupd : forall given old,
            (forall x, given = Some x -> PrimFloat.is_nan x = false) ->
            updated given old (new given old)).
  { intros [x|] old Hx; cbn; [|reflexivity].
    specialize (Hx x eq_refl). split; [reflexivity|].
    split; [apply clamp_in_unit; exact Hx|].
    rewrite (clamp_cases x Hx).
    repeat split.
    - intros -> -> ->. reflexivity.
    - intros ->. reflexivity.
    - intros -> ->. reflexivity.
    - intros -> ->. destruct (PrimFloat.leb 0 x); reflexivity. }
  exists p', w1. cbv zeta. fold genres. fold u1.
  split; [|split; [|split; [|split; [|split]]]].
  - unfold Profiles.updatePreferences. step. rewrite Hfind, Hp. rewrite !assign_outcome.
    assert (Hp' : (match upd_energy body with
                   | Some v => Some (Profiles.set_energy (Profiles.clamp v) p)
                   | None => Some p
                   end) = Some (Profiles.set_energy (new (upd_energy body) (energy p)) p)).
    { destruct (upd_energy body); [reflexivity|]. destruct p; reflexivity. }
    destruct (upd_energy body) as [x|] eqn:Hx, (upd_danceability body) as [y|] eqn:Hy,
      (upd_valence body) as [z|] eqn:Hz; cbn;
      rewrite ?assign_outcome; cbn;
      match goal with
      | |- context [save false ?u' w] =>
          replace u' with u1 by (subst u1 p' new genres; cbn; rewrite ?Hx, ?Hy, ?Hz;
                                 destruct p; reflexivity)
      end;
      rewrite (save_written u1 w Href Hvalid); cbn;
      repeat f_equal; subst p' new; cbn; destruct p; reflexivity.
  - destruct (find_replaceDoc u u1 userId _ Hdoc Hu) as (Hfind1 & _).
    unfold Server.getUser. step.
    rewrite (findById_found userId w1 u1 eq_refl Hfind1). reflexivity.
  - apply Hupd. intros x Hx. apply (Hnan x). left. exact Hx.
  - apply Hupd. intros x Hx. apply (Hnan x). right. left. exact Hx.
  - apply Hupd. intros x Hx. apply (Hnan x). right. right. exact Hx.
  - unfold prefs_in_unit. rewrite Hp. intros (He & Hd & Hv). cbn.
    assert (Hin : forall given old,
              (forall x, given = Some x -> PrimFloat.is_nan x = false) ->
              in_unit old = true -> in_unit (new given old) = true).
    { intros [x|] old Hx Hold; cbn; [apply clamp_in_unit, Hx; reflexivity|exact Hold]. }
    repeat split; apply Hin; try assumption; intros x Hx; apply (Hnan x); auto.
Qed.

Lemma preferences_witness :
  exists (p' : Preferences) (w1 : World),
    Profiles.updatePreferences "user0" Cases.louder Demo.world
    = (Return (PreferencesUpdated (Some p') ["metal"]), w1)
    /\ energy p' = 1%float /\ danceability p' = 0.5%float /\ valence p' = 0%float.
Proof.
  destruct (preferences_are_clamped Demo.world "user0" Demo.alice
              {| energy := 0.25; danceability := 0.5; valence := 0.75 |} Cases.louder
              eq_refl eq_refl eq_refl)
    as (p' & w1 & Hrun & _ & (He & _) & Hd & (Hv & _) & _).
  - intros x [H|[H|H]]; try discriminate H; injection H as <-; reflexivity.
  - exists p', w1. split; [exact Hrun|].
    split; [rewrite He; reflexivity|]. split; [exact Hd|rewrite Hv; reflexivity].
Defined.

(** ** The search route *)

Lemma searchTracks_truthy (E : Env) (query : string) (limit : option Z) (w w' : World)
    (items : value) :
  Spotify.searchTracks E query limit w = (Return items, w') ->
  truthy items = true /\ trim query <> "".
Proof.
  unfold Spotify.searchTracks.
  destruct (String.eqb_spec query ""); [discriminate|].
  destruct (String.eqb_spec (trim query) ""); [discriminate|]. cbn [orb].
  unfold mbind, M_bind.
  destruct (Spotify.makeSpotifyRequest E _ w) as [[data|e] w1]; [|discriminate].
  unfold lift. destruct (get data "tracks") as [e|found]; [discriminate|]. cbn.
  destruct (truthy found); cbn; [|discriminate].
  destruct (get found "items") as [e|items']; [discriminate|]. cbn.
  destruct (truthy items') eqn:Ht; cbn; [|discriminate].
  intros [= <- _]. split; assumption.
Qed.

(** X13. [GET /api/search] in [src/server.js]: without [q], or with an
    empty [q], it answers 400 and nothing is sent or changed; with a [q]
    of white space only it answers 500, the message being the client's
    [Search query cannot be empty], again with nothing sent or changed;
    and whenever the client returns tracks it answers 200 with those
    tracks, their number and the query as it was written, untrimmed. When
    the client throws, it answers 500 with the error's message. *)
Theorem search_route_answers (E : Env) (w : World) :
  let failed (m : string) :=
    {| status := 500;
       json := ErrorJson "Failed to search tracks from Spotify" (Some m)
                 (Some "Check your Spotify API credentials and connection") |} in
  (forall q : option string,
      q = None \/ q = Some "" ->
      Server.search E q w
      = (Return {| status := 400; json := ErrorJson "Search query is required" None None |},
         w))
  /\ (forall q : string,
        q <> "" -> trim q = "" ->
        Server.search E (Some q) w = (Return (failed "Search query cannot be empty"), w))
  /\ (forall (q : string) (items : value) (w' : World),
        Spotify.searchTracks E q None w = (Return items, w') ->
        exists count : value,
          get items "length" = inr count
          /\ Server.search E (Some q) w
             = (Return {| status := 200; json := SearchJson items count q |}, w'))
  /\ (forall (q : string) (e : exn) (w' : World),
        q <> "" ->
        Spotify.searchTracks E q None w = (Throw e, w') ->
        Server.search E (Some q) w = (Return (failed (message_of e)), w')).
Proof.
  intros failed. split; [|split; [|split]].
  - intros q [-> | ->]; reflexivity.
  - intros q Hne Hblank. unfold Server.search, try_catch.
    destruct (String.eqb_spec q ""); [contradiction|].
    unfold mbind, M_bind, Spotify.searchTracks.
    destruct (String.eqb_spec q ""); [contradiction|].
    rewrite Hblank. reflexivity.
  - intros q items w' Hrun.
    destruct (searchTracks_truthy E q None w w' items Hrun) as [Ht Hq].
    destruct (get_truthy items "length" Ht) as [count Hcount].
    exists count. split; [exact Hcount|].
    unfold Server.search, try_catch.
    destruct (String.eqb_spec q "") as [->|_]; [contradiction Hq; reflexivity|].
    unfold mbind, M_bind. rewrite Hrun. unfold lift. rewrite Hcount. reflexivity.
  - intros q e w' Hne Hrun. unfold Server.search, try_catch.
    destruct (String.eqb_spec q ""); [contradiction|].
    unfold mbind, M_bind. rewrite Hrun. reflexivity.
Qed.
